(** * newrelic-mcp: the NerdGraph client, region routing and the REST list core

  A shallow embedding of [src/client/newrelic-client.ts], of the session
  factory of the HTTP server, of the test helper [region-helpers.ts], and of
  the REST list adapters, followed by the properties the specification
  states about them.

  Conventions.
  - JavaScript strings are [string]; only the ASCII letters change case
    under [toUpperCase]/[toLowerCase]. The region token is compared with
    "EU" after upper-casing, and no character outside ASCII upper-cases to
    "E" or to "U", so that comparison is exact.
  - JavaScript numbers that the embedded code touches are integers ([Z]).
  - [process.env], HTTP headers and [links] are finite maps ([gmap]).
  - Effects (the requests that leave the process, exceptions) are threaded
    through a state-and-exception monad [Eff]. *)

From Stdlib Require Import ZArith Ascii String DecimalString.
From stdpp Require Import base option list gmap strings.

Local Open Scope string_scope.
Local Open Scope list_scope.
#[local] Set Warnings "-register-all".

(* ===================================================================== *)
(** * JavaScript primitives used by the sources                          *)
(* ===================================================================== *)

Module Js.

(** ** Strings *)

Definition is_lower (c : ascii) : bool :=
  let n := N_of_ascii c in ((97 <=? n) && (n <=? 122))%N.

Definition is_upper (c : ascii) : bool :=
  let n := N_of_ascii c in ((65 <=? n) && (n <=? 90))%N.

Definition char_toUpperCase (c : ascii) : ascii :=
  if is_lower c then ascii_of_N (N_of_ascii c - 32) else c.

Definition char_toLowerCase (c : ascii) : ascii :=
  if is_upper c then ascii_of_N (N_of_ascii c + 32) else c.

Fixpoint map_chars (f : ascii -> ascii) (s : string) : string :=
  match s with
  | EmptyString => EmptyString
  | String c s' => String (f c) (map_chars f s')
  end.

(** [String.prototype.toUpperCase] / [toLowerCase], as the case mapping of
    the ASCII letters. On a string of ASCII characters this is what
    JavaScript computes; a character outside ASCII is left as it is, where
    JavaScript may map it. Statements below rely on these functions only
    for ASCII strings, or through comparisons that no character outside
    ASCII can affect (the result being "EU", containing "timeseries"). *)
Definition toUpperCase : string -> string := map_chars char_toUpperCase.
Definition toLowerCase : string -> string := map_chars char_toLowerCase.

(** [hay.includes(needle)]. *)
Fixpoint includes (hay needle : string) : bool :=
  String.prefix needle hay
  || match hay with
     | EmptyString => false
     | String _ hay' => includes hay' needle
     end.

(** [hay.replace(/c/g, by)] for a one-character pattern. *)
Fixpoint replace_all (c : ascii) (by_ : string) (hay : string) : string :=
  match hay with
  | EmptyString => EmptyString
  | String d hay' =>
      if Ascii.eqb c d then by_ +:+ replace_all c by_ hay'
      else String d (replace_all c by_ hay')
  end.

Definition is_digit (c : ascii) : bool :=
  let n := N_of_ascii c in ((48 <=? n) && (n <=? 57))%N.

Fixpoint all_chars (p : ascii -> bool) (s : string) : bool :=
  match s with
  | EmptyString => true
  | String c s' => p c && all_chars p s'
  end.

(** [/^\d+$/.test(s)]: one or more decimal digits and nothing else. *)
Definition test_digits (s : string) : bool :=
  match s with
  | EmptyString => false
  | _ => all_chars is_digit s
  end.

(** Truthiness of a string: every string but the empty one. *)
Definition truthy_string (s : string) : bool :=
  match s with EmptyString => false | _ => true end.

(** Truthiness of a possibly [undefined] string. *)
Definition truthy_opt (o : option string) : bool :=
  match o with Some s => truthy_string s | None => false end.

(** [o === s] for a possibly [undefined] string [o]. *)
Definition strict_eq_opt (o : option string) (s : string) : bool :=
  match o with Some t => String.eqb t s | None => false end.

(** [a || b] on possibly [undefined] strings. *)
Definition or_else (a b : option string) : option string :=
  if truthy_opt a then a else b.

(** [a || 'literal']: the right operand is a string, so is the result
    whenever [a] is falsy; a truthy [a] is a non-empty string. *)
Definition or_default (a : option string) (d : string) : string :=
  match a with
  | Some s => if truthy_string s then s else d
  | None => d
  end.

(** Template-literal interpolation of an integer: [`${n}`]. *)
Definition number_toString (n : Z) : string :=
  NilZero.string_of_int (Z.to_int n).

Definition dquote : string := String "034"%char EmptyString.
Definition backslash : string := String "092"%char EmptyString.
Definition newline : string := String "010"%char EmptyString.

(** ** Values *)

(** JSON-shaped values; objects keep their keys in insertion order. *)
Inductive Value : Type :=
| Undefined
| Null
| Bool (b : bool)
| Num (n : Z)
| Str (s : string)
| Arr (elems : list Value)
| Obj (fields : list (string * Value)).

(** [!!v] *)
Definition truthy (v : Value) : bool :=
  match v with
  | Undefined | Null => false
  | Bool b => b
  | Num n => negb (n =? 0)%Z
  | Str s => truthy_string s
  | Arr _ | Obj _ => true
  end.

Fixpoint assoc (k : string) (fields : list (string * Value)) : Value :=
  match fields with
  | [] => Undefined
  | (k', v) :: rest => if String.eqb k k' then v else assoc k rest
  end.

(** [v.k] on a value that is an object; a property of anything else the
    embedded code reads is [undefined]. *)
Definition get (v : Value) (k : string) : Value :=
  match v with
  | Obj fields => assoc k fields
  | _ => Undefined
  end.

(** [v === s] for a string [s]: no coercion, so only a string equals it. *)
Definition strict_eq_string (v : Value) (s : string) : bool :=
  match v with
  | Str t => String.eqb t s
  | _ => false
  end.

(** ** Exceptions and outcomes *)

Inductive ErrorClass : Type :=
| ClsError              (* new Error(...) *)
| ClsSyntaxError        (* a body that is not JSON *)
| ClsTypeError          (* a rejected fetch *)
| ClsPreconditionError  (* the REST adapters' acknowledgement gate *)
| ClsRestApiError.      (* the REST transport's non-2xx *)

Record Exn : Type := mkExn { exn_class : ErrorClass; exn_message : string }.

(** [new Error(msg)] *)
Definition Error (msg : string) : Exn := mkExn ClsError msg.

Inductive Outcome (A : Type) : Type :=
| Returns (a : A)
| Throws (e : Exn)
| Diverges.             (* a loop that does not end *)
Arguments Returns {A} a.
Arguments Throws {A} e.
Arguments Diverges {A}.

(** ** The effect monad: a state and an outcome *)

Definition Eff (S A : Type) : Type := S -> Outcome A * S.

Definition ret {S A} (a : A) : Eff S A := fun s => (Returns a, s).
Definition throw {S A} (e : Exn) : Eff S A := fun s => (Throws e, s).
Definition diverge {S A} : Eff S A := fun s => (Diverges, s).

Definition bind {S A B} (m : Eff S A) (k : A -> Eff S B) : Eff S B :=
  fun s =>
    match m s with
    | (Returns a, s') => k a s'
    | (Throws e, s') => (Throws e, s')
    | (Diverges, s') => (Diverges, s')
    end.

(** [try { m } catch (e) { h e }] *)
Definition try_catch {S A} (m : Eff S A) (h : Exn -> Eff S A) : Eff S A :=
  fun s =>
    match m s with
    | (Throws e, s') => h e s'
    | r => r
    end.

End Js.

Import Js.

Notation "'let*' x ':=' m 'in' k" := (bind m (fun x => k))
  (at level 10, x name, m at level 100, k at level 200).

(* ===================================================================== *)
(** * test/utils/region-helpers.ts                                       *)
(* ===================================================================== *)

Module RegionHelpers.

(** [process.env.NEW_RELIC_REGION?.toUpperCase() === 'EU' ? '.eu' : ''] *)
Definition getRegionSubdomain (env : gmap string string) : string :=
  if strict_eq_opt (toUpperCase <$> env !! "NEW_RELIC_REGION") "EU"
  then ".eu" else "".

(** [const region = process.env.NEW_RELIC_REGION?.toUpperCase();
     return region === 'EU' ? 'EU' : 'US'] *)
Definition getTestRegion (env : gmap string string) : string :=
  let region := toUpperCase <$> env !! "NEW_RELIC_REGION" in
  if strict_eq_opt region "EU" then "EU" else "US".

End RegionHelpers.

(* ===================================================================== *)
(** * src/client/newrelic-client.ts                                      *)
(* ===================================================================== *)

Module Client.

(** [type Region = 'US' | 'EU'] is erased at run time: the function receives
    whatever string its caller computed. *)
Definition getNerdGraphUrl (region : string) : string :=
  if String.eqb region "EU"
  then "https://api.eu.newrelic.com/graphql"
  else "https://api.newrelic.com/graphql".

(** ** The wire: requests, responses, the global [fetch] *)

(** The argument of [JSON.stringify({ query, variables })], kept structured. *)
Record GraphQLBody : Type := mkBody {
  body_query : string;
  body_variables : option Value
}.

Record HttpRequest : Type := mkRequest {
  req_url : string;
  req_method : string;
  req_headers : list (string * string);
  req_body : GraphQLBody
}.

(** How a promise settles. *)
Inductive Settled (A : Type) : Type :=
| Resolved (a : A)
| Rejected (e : Exn).
Arguments Resolved {A} a.
Arguments Rejected {A} e.

(** [type GraphQLError = { message: string; [key: string]: unknown }] *)
Record GraphQLError : Type := mkGraphQLError {
  message : string;
  other_keys : list (string * Value)
}.

(** [type GraphQLResponse<T> = { data?: T; errors?: GraphQLError[] }] *)
Record GraphQLResponse (T : Type) : Type := mkEnvelope {
  data : option T;
  errors : option (list GraphQLError)
}.
Arguments mkEnvelope {T} data errors.
Arguments data {T} g.
Arguments errors {T} g.

(** What [fetch] resolves to. [json] is the settlement of [response.json()],
    read at the type the caller casts it to. *)
Record FetchResponse (T : Type) : Type := mkResponse {
  status : Z;
  statusText : string;
  json : Settled (GraphQLResponse T)
}.
Arguments mkResponse {T} status statusText json.
Arguments status {T} f.
Arguments statusText {T} f.
Arguments json {T} f.

(** [Response.ok]: the status is in the range 200 to 299. *)
Definition ok {T} (r : FetchResponse T) : bool :=
  ((200 <=? status r) && (status r <=? 299))%Z.

(** The process as the client sees it: the environment, the installed
    [fetch] (an answer for each request, given the requests before it), and
    the requests that have left the process so far. *)
Record World (T : Type) : Type := mkWorld {
  process_env : gmap string string;
  fetch : list HttpRequest -> HttpRequest -> Settled (FetchResponse T);
  sent : list HttpRequest
}.
Arguments mkWorld {T} process_env fetch sent.
Arguments process_env {T} w.
Arguments fetch {T} w.
Arguments sent {T} w.

Definition set_env {T} (k v : string) (w : World T) : World T :=
  mkWorld (<[k := v]> (process_env w)) (fetch w) (sent w).

(** What awaiting a settled promise amounts to. *)
Definition outcome_of {A} (p : Settled A) : Outcome A :=
  match p with
  | Resolved a => Returns a
  | Rejected e => Throws e
  end.

Definition await {S A} (p : Settled A) : Eff S A :=
  fun s => (outcome_of p, s).

(** The world once [req] has left the process. *)
Definition record_sent {T} (req : HttpRequest) (w : World T) : World T :=
  mkWorld (process_env w) (fetch w) (sent w ++ [req]).

(** [await fetch(url, init)] *)
Definition js_fetch {T} (req : HttpRequest) : Eff (World T) (FetchResponse T) :=
  fun w => await (fetch w (sent w) req) (record_sent req w).

(** ** The client object *)

Record NewRelicClient : Type := mkClient {
  apiKey : string;
  defaultAccountId : option string
}.

(** [constructor(apiKey?: string, defaultAccountId?: string)], run against
    the environment of that moment. *)
Definition constructor_ (apiKey_ defaultAccountId_ : option string)
    (env : gmap string string) : NewRelicClient :=
  {| apiKey := or_default (or_else apiKey_ (env !! "NEW_RELIC_API_KEY")) "";
     defaultAccountId := or_else defaultAccountId_ (env !! "NEW_RELIC_ACCOUNT_ID") |}.

(** [new NewRelicClient(...args)]: actual arguments are bound to the formal
    ones by position, missing ones are [undefined], surplus ones are dropped. *)
Definition new_NewRelicClient (args : list (option string))
    (env : gmap string string) : NewRelicClient :=
  constructor_ (mjoin (args !! 0%nat)) (mjoin (args !! 1%nat)) env.

(** ** NRQL: the response as [runNrqlQuery] types it, and its result *)

Definition Row : Type := list (string * Value).

Record TimeWindow : Type := mkTimeWindow { tw_begin : Z; tw_end : Z }.

Record NrqlMetadataNode : Type := mkMetadataNode {
  md_eventTypes : option (list string);
  md_timeWindow : option TimeWindow;
  md_facets : option (list string)
}.

Record NrqlNode : Type := mkNrqlNode {
  nrql_results : option (list Row);
  nrql_metadata : option NrqlMetadataNode
}.

Record AccountNode : Type := mkAccountNode { account_nrql : option NrqlNode }.
Record ActorNode : Type := mkActorNode { actor_account : option AccountNode }.
Record NrqlResponse : Type := mkNrqlResponse { actor : option ActorNode }.

(** [interface NrqlQueryResult] *)
Record NrqlMetadata : Type := mkMetadata {
  eventTypes : option (list string);
  timeWindow : option TimeWindow;
  facets : option (list string);
  timeSeries : option bool
}.

Record NrqlQueryResult : Type := mkNrqlQueryResult {
  results : list Row;
  metadata : NrqlMetadata
}.

Record NrqlParams : Type := mkNrqlParams { nrql : string; accountId : string }.

Definition unlines (ls : list string) : string :=
  match ls with
  | [] => ""
  | l :: rest => fold_left (fun acc x => acc +:+ newline +:+ x) rest l
  end.

(** The GraphQL document of [runNrqlQuery], line by line as in the template
    literal. *)
Definition nrqlDocument (params : NrqlParams) : string :=
  unlines
    [ "{";
      "      actor {";
      "        account(id: " +:+ accountId params +:+ ") {";
      "          nrql(query: " +:+ dquote
        +:+ replace_all "034"%char (backslash +:+ dquote) (nrql params)
        +:+ dquote +:+ ") {";
      "            results";
      "            metadata {";
      "              eventTypes";
      "              timeWindow {";
      "                begin";
      "                end";
      "              }";
      "              facets";
      "            }";
      "          }";
      "        }";
      "      }";
      "    }" ].

(** [response.errors[0]?.message || 'NRQL query failed'] *)
Definition firstErrorMessage (errs : list GraphQLError) : string :=
  or_default (message <$> errs !! 0%nat) "NRQL query failed".

(** [response.data?.actor?.account?.nrql] *)
Definition nrqlResultOf (response : GraphQLResponse NrqlResponse)
  : option NrqlNode :=
  ((data response ≫= actor) ≫= actor_account) ≫= account_nrql.

(** [{ ...nrqlResult.metadata, timeSeries: isTimeSeries }] *)
Definition spreadMetadata (m : option NrqlMetadataNode) (isTimeSeries : bool)
  : NrqlMetadata :=
  {| eventTypes := m ≫= md_eventTypes;
     timeWindow := m ≫= md_timeWindow;
     facets := m ≫= md_facets;
     timeSeries := Some isTimeSeries |}.

(** The [catch] clause of [runNrqlQuery]; every thrown value is an [Error]. *)
Definition nrqlCatch {S A} (error : Exn) : Eff S A :=
  if includes (exn_message error) "Syntax error"
  then throw (Error ("NRQL Syntax error: " +:+ exn_message error))
  else throw error.

Section ModuleScope.

(** [process.env] when the module is evaluated, once, at import. *)
Variable load_env : gmap string string.

Definition NERDGRAPH_URL : string :=
  getNerdGraphUrl
    (or_default (toUpperCase <$> load_env !! "NEW_RELIC_REGION") "US").

(** The request [executeNerdGraphQuery] hands to [fetch]. *)
Definition nerdGraphRequest (this : NewRelicClient)
    (query : string) (variables : option Value) : HttpRequest :=
  {| req_url := NERDGRAPH_URL;
     req_method := "POST";
     req_headers := [("Content-Type", "application/json");
                     ("API-Key", apiKey this)];
     req_body := mkBody query variables |}.

Definition executeNerdGraphQuery {T} (this : NewRelicClient)
    (query : string) (variables : option Value)
  : Eff (World T) (GraphQLResponse T) :=
  if negb (truthy_string (apiKey this))
     || String.eqb (apiKey this) ""
     || (String.length (apiKey this) =? 0)%nat
  then throw (Error "NEW_RELIC_API_KEY environment variable is not set")
  else
    let* response := js_fetch (nerdGraphRequest this query variables) in
    if negb (ok response) then
      if (status response =? 401)%Z
      then throw (Error "Unauthorized: Invalid API key")
      else throw (Error ("NerdGraph API error: "
                         +:+ number_toString (status response)
                         +:+ " " +:+ statusText response))
    else await (json response).

Definition runNrqlQuery (this : NewRelicClient) (params : NrqlParams)
  : Eff (World NrqlResponse) NrqlQueryResult :=
  if negb (truthy_string (nrql params))
  then throw (Error "Invalid or empty NRQL query provided")
  else if negb (truthy_string (accountId params))
          || negb (test_digits (accountId params))
  then throw (Error "Invalid account ID format")
  else
    let query := nrqlDocument params in
    try_catch
      (let* response := executeNerdGraphQuery this query None in
       match errors response with
       | Some errs => throw (Error (firstErrorMessage errs))
       | None =>
           match nrqlResultOf response with
           | None => throw (Error "No results returned from NRQL query")
           | Some nrqlResult =>
               let isTimeSeries :=
                 includes (toLowerCase (nrql params)) "timeseries" in
               ret {| results := default [] (nrql_results nrqlResult);
                      metadata := spreadMetadata (nrql_metadata nrqlResult)
                                                 isTimeSeries |}
           end
       end)
      nrqlCatch.

End ModuleScope.

(** ** The other methods of the client *)

(** [!!x] for an optional object: present is truthy. *)
Definition present {A} (o : option A) : bool :=
  match o with Some _ => true | None => false end.

(** [type UserResponse = { actor?: { user?: { id?; email? } } }] *)
Record UserNode : Type := mkUserNode {
  user_id : option string;
  user_email : option string
}.
Record UserActor : Type := mkUserActor { actor_user : option UserNode }.
Record UserResponse : Type := mkUserResponse { user_actor : option UserActor }.

Definition userDocument : string :=
  unlines
    [ "{";
      "        actor {";
      "          user {";
      "            id";
      "            email";
      "          }";
      "        }";
      "      }" ].

(** [type AccountResponse = { actor?: { account?: { id; name } } }] *)
Record AccountNodeInfo : Type := mkAccountNodeInfo {
  account_id : string;
  account_name : string
}.
Record AccountActor : Type := mkAccountActor {
  actor_account_info : option AccountNodeInfo
}.
Record AccountResponse : Type := mkAccountResponse {
  account_actor : option AccountActor
}.

(** [interface AccountDetails] *)
Record AccountDetails : Type := mkAccountDetails {
  ad_accountId : string;
  ad_name : string;
  ad_region : option string
}.

Definition accountDocument (id : string) : string :=
  unlines
    [ "{";
      "      actor {";
      "        account(id: " +:+ id +:+ ") {";
      "          id";
      "          name";
      "        }";
      "      }";
      "    }" ].

(** An entity's tag as the response types it: [{ key?; values? }]. *)
Record TagNode : Type := mkTagNode {
  tag_key : option string;
  tag_values : option (list string)
}.

Record EntityNode : Type := mkEntityNode {
  entity_guid : string;
  entity_name : string;
  entity_language : option string;
  entity_reporting : option bool;
  entity_alertSeverity : option string;
  entity_tags : option (list TagNode)
}.

Record EntityResults : Type := mkEntityResults {
  results_entities : option (list EntityNode)
}.
Record EntitySearch : Type := mkEntitySearch {
  search_results : option EntityResults
}.
Record EntityActor : Type := mkEntityActor {
  actor_entitySearch : option EntitySearch
}.
Record EntitySearchResponse : Type := mkEntitySearchResponse {
  search_actor : option EntityActor
}.

(** [interface ApmApplication]; [tags] is the object [parseTags] builds. *)
Record ApmApplication : Type := mkApmApplication {
  app_guid : string;
  app_name : string;
  app_language : string;
  app_reporting : bool;
  app_alertSeverity : option string;
  app_tags : gmap string string
}.

Definition entitySearchDocument (id : string) : string :=
  unlines
    [ "{";
      "      actor {";
      "        entitySearch(query: " +:+ dquote
        +:+ "domain = 'APM' AND type = 'APPLICATION' AND accountId = '"
        +:+ id +:+ "'" +:+ dquote +:+ ") {";
      "          results {";
      "            entities {";
      "              guid";
      "              name";
      "              ... on ApmApplicationEntityOutline {";
      "                language";
      "                reporting";
      "                alertSeverity";
      "                tags {";
      "                  key";
      "                  values";
      "                }";
      "              }";
      "            }";
      "          }";
      "        }";
      "      }";
      "    }" ].

(** [result[key] = value] on a plain object holding strings. Every key
    becomes an own property but ["__proto__"], which reaches the prototype
    setter instead, and that setter ignores a string. *)
Definition assign (result : gmap string string) (key value : string)
  : gmap string string :=
  if String.eqb key "__proto__" then result else <[key := value]> result.

(** The body of the [forEach] of [parseTags]. *)
Definition parseTag (result : gmap string string) (tag : TagNode)
  : gmap string string :=
  let values := default [] (tag_values tag) in
  match tag_key tag, values with
  | Some key, value :: _ =>
      if truthy_string key then assign result key value else result
  | _, _ => result
  end.

(** [private parseTags(tags?)] *)
Definition parseTags (tags : option (list TagNode)) : gmap string string :=
  match tags with
  | None => ∅
  | Some tags => fold_left parseTag tags ∅
  end.

(** The mapping [listApmApplications] applies to each entity. *)
Definition toApmApplication (entity : EntityNode) : ApmApplication :=
  {| app_guid := entity_guid entity;
     app_name := entity_name entity;
     app_language := or_default (entity_language entity) "unknown";
     app_reporting := default false (entity_reporting entity);
     app_alertSeverity := entity_alertSeverity entity;
     app_tags := parseTags (entity_tags entity) |}.

(** [response.data?.actor?.entitySearch?.results?.entities || []] *)
Definition entitiesOf (response : GraphQLResponse EntitySearchResponse)
  : list EntityNode :=
  default []
    ((((data response ≫= search_actor) ≫= actor_entitySearch)
        ≫= search_results) ≫= results_entities).

Section ModuleScopeQueries.

(** [process.env] when the module is evaluated, as in [ModuleScope]. *)
Variable load_env : gmap string string.

Definition validateCredentials (this : NewRelicClient)
  : Eff (World UserResponse) bool :=
  try_catch
    (let* response := executeNerdGraphQuery load_env this userDocument None in
     ret (present ((data response ≫= user_actor) ≫= actor_user)))
    (fun _error => ret false).

Definition getAccountDetails (this : NewRelicClient)
    (accountId : option string)
  : Eff (World AccountResponse) AccountDetails :=
  match or_else accountId (defaultAccountId this) with
  | None => throw (Error "Account ID must be provided")
  | Some id =>
      if negb (truthy_string id)
      then throw (Error "Account ID must be provided")
      else
        let query := accountDocument id in
        let* response := executeNerdGraphQuery load_env this query None in
        match (data response ≫= account_actor) ≫= actor_account_info with
        | None => throw (Error ("Account " +:+ id +:+ " not found"))
        | Some account =>
            ret {| ad_accountId := account_id account;
                   ad_name := account_name account;
                   ad_region := None |}
        end
  end.

Definition listApmApplications (this : NewRelicClient)
    (accountId : option string)
  : Eff (World EntitySearchResponse) (list ApmApplication) :=
  match or_else accountId (defaultAccountId this) with
  | None => throw (Error "Account ID must be provided")
  | Some id =>
      if negb (truthy_string id)
      then throw (Error "Account ID must be provided")
      else
        let query := entitySearchDocument id in
        let* response := executeNerdGraphQuery load_env this query None in
        let entities := entitiesOf response in
        ret (map toApmApplication entities)
  end.

End ModuleScopeQueries.

End Client.

(* ===================================================================== *)
(** * The HTTP server's session factory                                  *)
(* ===================================================================== *)

Module HttpServer.

Record SessionContext : Type := mkSession {
  ctx_apiKey : string;
  ctx_accountId : option string;
  ctx_region : string;
  ctx_client : Client.NewRelicClient
}.

(** [createSessionFromHeaders(req)], with [req.headers] as a map and the
    environment of the moment the client is constructed. *)
Definition createSessionFromHeaders (headers : gmap string string)
    (env : gmap string string) : option SessionContext :=
  let apiKey := headers !! "x-new-relic-api-key" in
  let accountId := headers !! "x-new-relic-account-id" in
  let region := toUpperCase (or_default (headers !! "x-new-relic-region") "US") in
  match apiKey with
  | Some key =>
      if negb (truthy_string key) then None
      else
        let client :=
          Client.new_NewRelicClient [Some key; accountId; Some region] env in
        Some {| ctx_apiKey := key; ctx_accountId := accountId;
                ctx_region := region; ctx_client := client |}
  | None => None
  end.

(** ** The session store and its periodic clean-up *)

(** [const SESSION_TTL_MS = 60 * 60 * 1000] *)
Definition SESSION_TTL_MS : Z := 60 * 60 * 1000.

(** The two module-level maps, [sessions] and [sessionLastAccess]. *)
Record SessionStore : Type := mkStore {
  sessions : gmap string SessionContext;
  sessionLastAccess : gmap string Z
}.

(** One turn of the loop over [sessionLastAccess.entries()]. *)
Definition expireIfStale (now : Z) (store : SessionStore)
    (entry : string * Z) : SessionStore :=
  let '(sessionId, lastAccess) := entry in
  if (now - lastAccess >? SESSION_TTL_MS)%Z
  then mkStore (delete sessionId (sessions store))
               (delete sessionId (sessionLastAccess store))
  else store.

(** The callback of [setInterval], run at time [now = Date.now()]. Each
    entry that was in the map when the loop started is visited once;
    deleting the entry under the cursor does not disturb the iteration. *)
Definition cleanupSessions (now : Z) (store : SessionStore) : SessionStore :=
  fold_left (expireIfStale now) (map_to_list (sessionLastAccess store)) store.

End HttpServer.

(* ===================================================================== *)
(** * The REST list core: transport interface, pagination, adapters      *)
(* ===================================================================== *)

Module Rest.

Import Client.

(** Modelled from the spec: the result record of the REST transport
    ([RestResponse<T>]: status, data, url, optional link relations). The
    transport, [src/client/rest-client.ts], is not among the sources; the
    tests replace it by a mock that answers with records of this shape. *)
Record RestResponse (T : Type) : Type := mkRestResponse {
  rest_status : Z;
  rest_data : T;
  rest_url : string;
  rest_links : option (gmap string string)
}.
Arguments mkRestResponse {T} rest_status rest_data rest_url rest_links.
Arguments rest_status {T} r.
Arguments rest_data {T} r.
Arguments rest_url {T} r.
Arguments rest_links {T} r.

Definition Query : Type := list (string * Value).

(** Modelled from the spec: the three entry points of the transport,
    [get(path, query?)], [post(path, body)] and [delete(path)]; one upstream
    call is one of these. *)
Inductive RestCall : Type :=
| Get (path : string) (query : option Query)
| Post (path : string) (body : Value)
| Delete (path : string).

(** The upstream as an adapter meets it: an answer to each call, which may
    depend on the calls answered before (a mock's queue, a server's state). *)
Definition Upstream (T : Type) : Type :=
  list RestCall -> RestCall -> Settled (RestResponse T).

(** One upstream call; the state threaded through an adapter is the list of
    calls issued so far. *)
Definition rest_call {T} (upstream : Upstream T) (c : RestCall)
  : Eff (list RestCall) (RestResponse T) :=
  fun log => await (upstream log c) (log ++ [c])%list.

(** Modelled from the spec: what the page-fetch function is asked for, the
    initial call or the page a [next] relation points to. *)
Inductive PageParams : Type :=
| FirstPage
| LinkedPage (next : string).

(** [links.next], absent when there are no links or no such relation. *)
Definition nextLink {T} (r : RestResponse T) : option string :=
  rest_links r ≫= (fun links => links !! "next").

Section Engine.

Variable upstream : Upstream (list Value).

(** The adapter-supplied page-fetch function: the upstream call that
    fetches a given page. *)
Variable requestFor : PageParams -> RestCall.

Definition fetchPage (pp : PageParams)
  : Eff (list RestCall) (RestResponse (list Value)) :=
  rest_call upstream (requestFor pp).

(** Modelled from the spec: the auto-pagination engine of section 4.4.
    Fetch a page, append its items, follow [links.next] until it is absent.
    A failed fetch propagates and nothing accumulated is returned. The spec
    bounds the loop by nothing, so [fuel] counts the fetches an evaluation
    may take; running out of it is [Diverges]. *)
Fixpoint followLinks (fuel : nat) (pp : PageParams) (acc : list Value)
  : Eff (list RestCall) (list Value) :=
  match fuel with
  | O => diverge
  | S fuel' =>
      let* page := fetchPage pp in
      let acc' := (acc ++ rest_data page)%list in
      match nextLink page with
      | Some next => followLinks fuel' (LinkedPage next) acc'
      | None => ret acc'
      end
  end.

(** Modelled from the spec: without auto-pagination the first page's items
    are returned as they are; its [next] relation is not looked at. *)
Definition firstPageOnly : Eff (list RestCall) (list Value) :=
  let* page := fetchPage FirstPage in
  ret (rest_data page).

(** Modelled from the spec: a REST list operation. *)
Definition listPages (fuel : nat) (auto_paginate : bool)
  : Eff (list RestCall) (list Value) :=
  if auto_paginate then followLinks fuel FirstPage [] else firstPageOnly.

(** A run of pages as the upstream serves them, starting from [pp] after
    the calls in [log]: every page but the last carries a [next] relation,
    and the following page is the answer to the request for that link. *)
Inductive PageChain
  : list RestCall -> PageParams -> list (RestResponse (list Value)) -> Prop :=
| chain_last (log : list RestCall) (pp : PageParams)
    (page : RestResponse (list Value)) :
    upstream log (requestFor pp) = Resolved page ->
    nextLink page = None ->
    PageChain log pp [page]
| chain_next (log : list RestCall) (pp : PageParams)
    (page : RestResponse (list Value)) (next : string)
    (rest : list (RestResponse (list Value))) :
    upstream log (requestFor pp) = Resolved page ->
    nextLink page = Some next ->
    PageChain (log ++ [requestFor pp]) (LinkedPage next) rest ->
    PageChain log pp (page :: rest).

(** The requests that walk such a run: the one for [pp], then the one for
    each [next] relation in turn. *)
Fixpoint chainCalls (pp : PageParams)
    (pages : list (RestResponse (list Value))) : list RestCall :=
  match pages with
  | [] => []
  | page :: rest =>
      requestFor pp ::
        match nextLink page with
        | Some next => chainCalls (LinkedPage next) rest
        | None => []
        end
  end.

End Engine.

(** ** Adapters *)

(** Modelled from the spec: the optional [page] override becomes the query
    of the initial call; no key is sent for an absent value (the tests see
    [get(path, undefined)] when nothing is to be sent). *)
Definition pageQuery (page : option Z) : option Query :=
  match page with
  | Some p => Some [("page", Num p)]
  | None => None
  end.

Section Adapters.

Variable upstream : Upstream (list Value).

(** How an adapter turns a [next] URL into its follow-up call; the spec
    leaves it to the adapter. *)
Variable followLink : string -> RestCall.

Definition pageRequest (first : RestCall) (pp : PageParams) : RestCall :=
  match pp with
  | FirstPage => first
  | LinkedPage next => followLink next
  end.

Record ListDeploymentsArgs : Type := mkListDeploymentsArgs {
  ld_application_id : Z;
  ld_page : option Z;
  ld_auto_paginate : option bool
}.

Definition deploymentsPath (application_id : Z) : string :=
  "/applications/" +:+ number_toString application_id +:+ "/deployments".

Definition deploymentsRequest (args : ListDeploymentsArgs)
  : PageParams -> RestCall :=
  pageRequest (Get (deploymentsPath (ld_application_id args))
                   (pageQuery (ld_page args))).

(** Modelled from the spec: [RestDeploymentsTool.list]. *)
Definition listDeployments (fuel : nat) (args : ListDeploymentsArgs)
  : Eff (list RestCall) (list Value) :=
  listPages upstream (deploymentsRequest args)
    fuel (default false (ld_auto_paginate args)).

Record ListIncidentsArgs : Type := mkListIncidentsArgs {
  li_page : option Z;
  li_auto_paginate : option bool;
  li_only_open : option bool;
  li_priority : option string
}.

(** [closed_at] is falsy: the incident is still open. *)
Definition isOpen (item : Value) : bool :=
  negb (truthy (get item "closed_at")).

(** The item's [priority] is the given string, exactly. *)
Definition hasPriority (priority : string) (item : Value) : bool :=
  strict_eq_string (get item "priority") priority.

(** Modelled from the spec: the two client-side filters of [listIncidents]. *)
Definition clientSideFilter (only_open : option bool)
    (priority : option string) (items : list Value) : list Value :=
  let opened :=
    if default false only_open then List.filter isOpen items else items in
  match priority with
  | Some p => List.filter (hasPriority p) opened
  | None => opened
  end.

(** Modelled from the spec: [RestAlertsTool.listIncidents]; the filters run
    on what the list operation returned. *)
(** What both filters together keep. *)
Definition keeps (only_open : option bool) (priority : option string)
    (item : Value) : bool :=
  (if default false only_open then isOpen item else true)
  && match priority with
     | Some p => hasPriority p item
     | None => true
     end.

Definition incidentsRequest (args : ListIncidentsArgs)
  : PageParams -> RestCall :=
  pageRequest (Get "/alerts_incidents" (pageQuery (li_page args))).

Definition listIncidents (fuel : nat) (args : ListIncidentsArgs)
  : Eff (list RestCall) (list Value) :=
  let* items :=
    listPages upstream (incidentsRequest args)
      fuel (default false (li_auto_paginate args)) in
  ret (clientSideFilter (li_only_open args) (li_priority args) items).

End Adapters.

Record DeleteDeploymentArgs : Type := mkDeleteDeploymentArgs {
  dd_application_id : Z;
  dd_id : Z;
  dd_confirm : Value        (* [Undefined] when the caller left it out *)
}.

Definition deploymentPath (application_id id : Z) : string :=
  deploymentsPath application_id +:+ "/" +:+ number_toString id.

(** The spec names the error's kind and not its text. *)
Definition confirmRequired : Exn :=
  mkExn ClsPreconditionError "delete_deployment: confirm must be true".

(** Modelled from the spec: [RestDeploymentsTool.delete], which refuses
    before it reaches the transport unless [confirm] is set. *)
Definition deleteDeployment {T} (upstream : Upstream T)
    (args : DeleteDeploymentArgs) : Eff (list RestCall) (RestResponse T) :=
  if negb (truthy (dd_confirm args)) then throw confirmRequired
  else rest_call upstream
         (Delete (deploymentPath (dd_application_id args) (dd_id args))).

(** A mock in the manner of [vi.fn().mockResolvedValueOnce(..)]: the n-th
    call is answered by the n-th queued response. *)
Definition mockQueue {T} (queue : list (RestResponse T)) : Upstream T :=
  fun log _ =>
    match queue !! length log with
    | Some r => Resolved r
    | None => Rejected (mkExn ClsTypeError "mock exhausted")
    end.

End Rest.

(* ===================================================================== *)
(** * Example data: the scenarios of the test suite                      *)
(* ===================================================================== *)

Module Scenarios.

Import Client Rest.

Definition US_URL : string := "https://api.newrelic.com/graphql".
Definition EU_URL : string := "https://api.eu.newrelic.com/graphql".

(** The region token spelled as "EU" in some letter case. *)
Definition anyCaseEU (token : option string) : bool :=
  match token with
  | Some s =>
      String.eqb s "EU" || String.eqb s "Eu"
      || String.eqb s "eU" || String.eqb s "eu"
  | None => false
  end.

(** The error of the per-call key check. *)
Definition missingKey : Exn :=
  Error "NEW_RELIC_API_KEY environment variable is not set".

Definition userQuery : string := "{ actor { user { id } } }".

(** A [fetch] that answers every request with the same response. *)
Definition answering {T} (r : FetchResponse T)
  : list HttpRequest -> HttpRequest -> Settled (FetchResponse T) :=
  fun _ _ => Resolved r.

Definition emptyEnvelope : GraphQLResponse unit := mkEnvelope None None.

Definition response401 : FetchResponse unit :=
  mkResponse 401 "Unauthorized" (Resolved emptyEnvelope).

Definition response500 : FetchResponse unit :=
  mkResponse 500 "Internal Server Error" (Resolved emptyEnvelope).

Definition response200 : FetchResponse unit :=
  mkResponse 200 "OK" (Resolved (mkEnvelope (Some tt) None)).

(** The environment of the client tests. *)
Definition testEnv : gmap string string :=
  {[ "NEW_RELIC_API_KEY" := "test-api-key";
     "NEW_RELIC_ACCOUNT_ID" := "123456" ]}.

Definition testClient : NewRelicClient := constructor_ None None testEnv.

Definition world500 : World unit := mkWorld testEnv (answering response500) [].

Definition world401 : World unit := mkWorld testEnv (answering response401) [].

(** What [response.json()] rejects with when there is nothing to parse. *)
Definition emptyBody : Exn :=
  mkExn ClsSyntaxError "Unexpected end of JSON input".

(** A 204: inside 200..299, and without a body. *)
Definition response204 : FetchResponse unit :=
  mkResponse 204 "No Content" (Rejected emptyBody).

Definition world204 : World unit := mkWorld testEnv (answering response204) [].

(** A process started without a key. *)
Definition bareWorld : World unit := mkWorld ∅ (answering response200) [].

(** A client constructed in it, before any key is configured. *)
Definition bareClient : NewRelicClient :=
  constructor_ None None (process_env bareWorld).

(** The same process once [NEW_RELIC_API_KEY] has been set. *)
Definition keyedWorld : World unit :=
  set_env "NEW_RELIC_API_KEY" "NRAK-SET-LATER" bareWorld.

(** Session headers asking for the EU region. *)
Definition euHeaders : gmap string string :=
  {[ "x-new-relic-api-key" := "NRAK-SESSION";
     "x-new-relic-region" := "eu" ]}.

(** An NRQL call with well-formed arguments. *)
Definition countQuery : NrqlParams :=
  mkNrqlParams "SELECT count(*) FROM Transaction" "123456".

Definition countNode : NrqlNode :=
  mkNrqlNode (Some [[("count", Num 42)]]) None.

Definition countData : NrqlResponse :=
  mkNrqlResponse (Some (mkActorNode (Some (mkAccountNode (Some countNode))))).

(** An envelope with its data in place and an [errors] array with nothing
    in it. *)
Definition emptyErrors : GraphQLResponse NrqlResponse :=
  mkEnvelope (Some countData) (Some []).

Definition emptyErrorsWorld : World NrqlResponse :=
  mkWorld testEnv (answering (mkResponse 200 "OK" (Resolved emptyErrors))) [].

(** An envelope whose first error reports a syntax error, data present. *)
Definition syntaxErrors : GraphQLResponse NrqlResponse :=
  mkEnvelope (Some countData)
    (Some [mkGraphQLError "Syntax error near FROM" [];
           mkGraphQLError "second" []]).

Definition syntaxResponse : FetchResponse NrqlResponse :=
  mkResponse 200 "OK" (Resolved syntaxErrors).

Definition syntaxErrorsWorld : World NrqlResponse :=
  mkWorld testEnv (answering syntaxResponse) [].

(** A follow-up call that hands the [next] URL back to the transport. *)
Definition followByUrl (next : string) : RestCall := Get next None.

Definition incident (id : Z) (priority : string) (closed_at : Z) : Value :=
  Obj [("id", Num id); ("priority", Str priority); ("closed_at", Num closed_at)].

Definition incidentsNext : string :=
  "https://api.newrelic.com/v2/alerts_incidents.json?page=2".

(** The two pages of the incidents test: one open HIGH incident, then one
    closed LOW incident. *)
Definition incidentPages : list (RestResponse (list Value)) :=
  [ mkRestResponse 200 [incident 1 "HIGH" 0] ""
      (Some {[ "next" := incidentsNext ]});
    mkRestResponse 200 [incident 2 "LOW" 123] "" (Some ∅) ].

Definition incidentArgs : ListIncidentsArgs :=
  mkListIncidentsArgs None (Some true) (Some true) (Some "HIGH").

(** The single page of the first-page test; its [next] is there to be
    ignored. *)
Definition loneIncidentPage : RestResponse (list Value) :=
  mkRestResponse 200 [incident 10 "MEDIUM" 0] ""
    (Some {[ "next" := "ignored-when-no-auto" ]}).

Definition deploymentsNext : string :=
  "https://api.newrelic.com/v2/applications/1/deployments.json?page=2".

(** The two pages of the deployments test. *)
Definition deploymentPages : list (RestResponse (list Value)) :=
  [ mkRestResponse 200 [Obj [("id", Num 1)]] ""
      (Some {[ "next" := deploymentsNext ]});
    mkRestResponse 200 [Obj [("id", Num 2)]] "" (Some ∅) ].

Definition deploymentArgs : ListDeploymentsArgs :=
  mkListDeploymentsArgs 1 None (Some true).

Definition deleted : RestResponse Value :=
  mkRestResponse 200 (Obj [("ok", Bool true)]) "u" None.

(** A world whose every request is answered with a 200 and [resp]. *)
Definition answeringWith {T} (resp : GraphQLResponse T) : World T :=
  mkWorld testEnv (answering (mkResponse 200 "OK" (Resolved resp))) [].

(** The identity probe answered with a user. *)
Definition userEnvelope : GraphQLResponse UserResponse :=
  mkEnvelope
    (Some (mkUserResponse
             (Some (mkUserActor (Some (mkUserNode (Some "1") None))))))
    None.

(** The account of the tests, reported next to an error. *)
Definition accountEnvelope : GraphQLResponse AccountResponse :=
  mkEnvelope
    (Some (mkAccountResponse
             (Some (mkAccountActor
                      (Some (mkAccountNodeInfo "123456" "Test Account"))))))
    (Some [mkGraphQLError "partial failure" []]).

(** An entity without language and reporting, and with a repeated tag. *)
Definition webTags : list TagNode :=
  [ mkTagNode (Some "env") (Some ["staging"; "blue"]);
    mkTagNode (Some "team") (Some []);
    mkTagNode None (Some ["orphan"]);
    mkTagNode (Some "env") (Some ["production"]) ].

Definition webEntity : EntityNode :=
  mkEntityNode "GUID-1" "web" None None (Some "CRITICAL") (Some webTags).

Definition entityEnvelope : GraphQLResponse EntitySearchResponse :=
  mkEnvelope
    (Some (mkEntitySearchResponse
             (Some (mkEntityActor
                      (Some (mkEntitySearch
                               (Some (mkEntityResults (Some [webEntity]))))))))) 
    None.

(** A time-series query, the keyword in mixed case. *)
Definition seriesQuery : NrqlParams :=
  mkNrqlParams "SELECT count(*) FROM Transaction TimeSeries" "123456".

Definition countEnvelope : GraphQLResponse NrqlResponse :=
  mkEnvelope (Some countData) None.

(** Two sessions: one last used at time 0, one at 3 000 000 ms. *)
Definition sampleSession (key : string) : HttpServer.SessionContext :=
  HttpServer.mkSession key None "US" (constructor_ (Some key) None ∅).

Definition sampleStore : HttpServer.SessionStore :=
  HttpServer.mkStore
    {[ "old" := sampleSession "K1"; "new" := sampleSession "K2" ]}
    {[ "old" := 0%Z; "new" := 3000000%Z ]}.

End Scenarios.

(* ===================================================================== *)
(** * Vocabulary for stating what the code guarantees                    *)
(* ===================================================================== *)

Module Views.

Import Client HttpServer.

(** A non-empty string of decimal digits. *)
Definition digits_only (s : string) : Prop :=
  s <> ""
  /\ forall c : ascii, In c (list_ascii_of_string s) ->
       (48 <= N_of_ascii c <= 57)%N.

(** How often a character occurs. *)
Fixpoint count_char (c : ascii) (s : string) : nat :=
  match s with
  | EmptyString => 0
  | String d s' => (if Ascii.eqb c d then 1 else 0) + count_char c s'
  end.

(** Every double quote comes right after a backslash; [escaped] tells
    whether the character before the string was one. *)
Fixpoint quotes_escaped (escaped : bool) (s : string) : bool :=
  match s with
  | EmptyString => true
  | String c s' =>
      if Ascii.eqb c "034" then escaped && quotes_escaped false s'
      else quotes_escaped (Ascii.eqb c "092") s'
  end.

(** Take away each backslash that stands right before a double quote. *)
Fixpoint unescape_quotes (s : string) : string :=
  match s with
  | EmptyString => EmptyString
  | String c s' =>
      match s' with
      | String d _ =>
          if Ascii.eqb c "092" && Ascii.eqb d "034"
          then unescape_quotes s'
          else String c (unescape_quotes s')
      | EmptyString => String c EmptyString
      end
  end.

(** The fixed text of the NRQL document: before the account id, between
    the account id and the opening quote of the query, and after its
    closing quote. *)
Definition nrqlHead : string :=
  "{" +:+ newline
  +:+ "      actor {" +:+ newline
  +:+ "        account(id: ".

Definition nrqlMiddle : string :=
  ") {" +:+ newline
  +:+ "          nrql(query: ".

Definition nrqlTail : string :=
  ") {" +:+ newline
  +:+ "            results" +:+ newline
  +:+ "            metadata {" +:+ newline
  +:+ "              eventTypes" +:+ newline
  +:+ "              timeWindow {" +:+ newline
  +:+ "                begin" +:+ newline
  +:+ "                end" +:+ newline
  +:+ "              }" +:+ newline
  +:+ "              facets" +:+ newline
  +:+ "            }" +:+ newline
  +:+ "          }" +:+ newline
  +:+ "        }" +:+ newline
  +:+ "      }" +:+ newline
  +:+ "    }".

(** Only ASCII characters. *)
Definition is_ascii (s : string) : bool :=
  all_chars (fun c => (N_of_ascii c <? 128)%N) s.

(** The entry a tag contributes to the object [parseTags] builds, if any. *)
Definition tagEntry (tag : TagNode) : option (string * string) :=
  match tag_key tag, default [] (tag_values tag) with
  | Some key, value :: _ =>
      if truthy_string key && negb (String.eqb key "__proto__")
      then Some (key, value) else None
  | _, _ => None
  end.

(** The session was last used more than the time-to-live ago. *)
Definition stale (now : Z) (lastAccess : gmap string Z) (id : string) : Prop :=
  exists t : Z, lastAccess !! id = Some t /\ (now - t > SESSION_TTL_MS)%Z.

End Views.

(* ===================================================================== *)
(** * Facts about the string primitives                                  *)
(* ===================================================================== *)

Section StringFacts.

Lemma prefix_app (s t : string) : String.prefix s (s +:+ t) = true.
Proof.
  induction s as [|c s IH]; simpl.
  - destruct t; reflexivity.
  - destruct (ascii_dec c c) as [_|Hne]; [exact IH | congruence].
Qed.

Lemma includes_prefix (hay needle : string) :
  String.prefix needle hay = true -> includes hay needle = true.
Proof. destruct hay; simpl; intros ->; reflexivity. Qed.

Lemma includes_skip (a hay needle : string) :
  includes hay needle = true -> includes (a +:+ hay) needle = true.
Proof.
  intros H. induction a as [|c a IH]; simpl; [exact H|].
  rewrite IH. apply orb_true_r.
Qed.

(** A string contains each piece it was concatenated from. *)
Lemma includes_mid (a s b : string) : includes (a +:+ s +:+ b) s = true.
Proof. apply includes_skip, includes_prefix, prefix_app. Qed.

Lemma append_empty_r (s : string) : s +:+ "" = s.
Proof.
  induction s as [|c s IH]; [reflexivity|].
  change (String c (s +:+ "") = String c s). f_equal. exact IH.
Qed.

Lemma includes_end (a s : string) : includes (a +:+ s) s = true.
Proof.
  pose proof (includes_mid a s "") as H.
  rewrite append_empty_r in H. exact H.
Qed.

Lemma truthy_string_empty (s : string) : truthy_string s = false <-> s = "".
Proof. destruct s; simpl; split; congruence. Qed.

Lemma upper_is_E (c : ascii) :
  Ascii.eqb (char_toUpperCase c) "E" = Ascii.eqb c "E" || Ascii.eqb c "e".
Proof. destruct c as [[] [] [] [] [] [] [] []]; reflexivity. Qed.

Lemma upper_is_U (c : ascii) :
  Ascii.eqb (char_toUpperCase c) "U" = Ascii.eqb c "U" || Ascii.eqb c "u".
Proof. destruct c as [[] [] [] [] [] [] [] []]; reflexivity. Qed.

Lemma toUpperCase_truthy (s : string) :
  truthy_string (toUpperCase s) = truthy_string s.
Proof. destruct s; reflexivity. Qed.

(** Upper-casing yields "EU" exactly for the four spellings of it. *)
Lemma toUpperCase_is_EU (s : string) :
  String.eqb (toUpperCase s) "EU" = Scenarios.anyCaseEU (Some s).
Proof.
  unfold Scenarios.anyCaseEU.
  destruct s as [|c1 [|c2 [|c3 s]]]; simpl; try reflexivity.
  - destruct (Ascii.eqb (char_toUpperCase c1) "E"), (Ascii.eqb c1 "E"),
      (Ascii.eqb c1 "e"); reflexivity.
  - rewrite upper_is_E, upper_is_U.
    destruct (Ascii.eqb c1 "E"), (Ascii.eqb c1 "e"),
      (Ascii.eqb c2 "U"), (Ascii.eqb c2 "u"); reflexivity.
  - rewrite upper_is_E, upper_is_U.
    destruct (Ascii.eqb c1 "E"), (Ascii.eqb c1 "e"),
      (Ascii.eqb c2 "U"), (Ascii.eqb c2 "u"); reflexivity.
Qed.

Lemma all_digits_spec (s : string) :
  all_chars is_digit s = true
  <-> forall c : ascii, In c (list_ascii_of_string s) ->
        (48 <= N_of_ascii c <= 57)%N.
Proof.
  induction s as [|d s IH]; simpl.
  - split; [intros _ c [] | reflexivity].
  - rewrite andb_true_iff, IH. unfold is_digit.
    rewrite andb_true_iff, !N.leb_le. split.
    + intros [Hd Hs] c [<- | Hc]; [exact Hd | exact (Hs c Hc)].
    + intros H. split; [apply H; left; reflexivity|].
      intros c Hc. apply H. right. exact Hc.
Qed.

(** The test of [/^\d+$/] accepts the non-empty digit strings and nothing
    else. *)
Lemma test_digits_spec (s : string) :
  test_digits s = true <-> Views.digits_only s.
Proof.
  unfold Views.digits_only. destruct s as [|d s].
  - simpl. split; [discriminate | intros [H _]; contradiction].
  - change (test_digits (String d s)) with (all_chars is_digit (String d s)).
    rewrite all_digits_spec. split; [intros H; split; [discriminate | exact H]
                                    | intros [_ H]; exact H].
Qed.

Lemma append_assoc (a b c : string) : (a +:+ b) +:+ c = a +:+ (b +:+ c).
Proof.
  induction a as [|x a IH]; [reflexivity|].
  change (String x ((a +:+ b) +:+ c) = String x (a +:+ (b +:+ c))).
  f_equal. exact IH.
Qed.

Lemma map_chars_app (f : ascii -> ascii) (a b : string) :
  map_chars f (a +:+ b) = map_chars f a +:+ map_chars f b.
Proof.
  induction a as [|x a IH]; [reflexivity|].
  change (String (f x) (map_chars f (a +:+ b))
          = String (f x) (map_chars f a +:+ map_chars f b)).
  f_equal. exact IH.
Qed.

(** A word in any letter case is found after lower-casing. *)
Lemma includes_any_case (a x b word : string) :
  toLowerCase x = word ->
  includes (toLowerCase (a +:+ x +:+ b)) word = true.
Proof.
  intros <-. unfold toLowerCase. rewrite !map_chars_app. apply includes_mid.
Qed.

Lemma escape_cons (c : ascii) (s : string) :
  replace_all "034" (backslash +:+ dquote) (String c s)
  = if Ascii.eqb "034" c
    then String "092" (String "034"
           (replace_all "034" (backslash +:+ dquote) s))
    else String c (replace_all "034" (backslash +:+ dquote) s).
Proof. reflexivity. Qed.

Lemma quotes_escaped_cons (b : bool) (c : ascii) (s : string) :
  Views.quotes_escaped b (String c s)
  = if Ascii.eqb c "034" then b && Views.quotes_escaped false s
    else Views.quotes_escaped (Ascii.eqb c "092") s.
Proof. reflexivity. Qed.

(** Escaping as the NRQL document does it: a backslash before each quote. *)
Lemma escape_quotes_escaped (s : string) (after_backslash : bool) :
  Views.quotes_escaped after_backslash
    (replace_all "034" (backslash +:+ dquote) s) = true.
Proof.
  revert after_backslash. induction s as [|c s IH]; intros b; [reflexivity|].
  rewrite escape_cons. destruct (Ascii.eqb "034" c) eqn:Hc.
  - rewrite !quotes_escaped_cons.
    change (Ascii.eqb "092" "034") with false.
    change (Ascii.eqb "092" "092") with true.
    change (Ascii.eqb "034" "034") with true.
    cbv iota. rewrite IH. reflexivity.
  - rewrite quotes_escaped_cons, Ascii.eqb_sym, Hc. apply IH.
Qed.

(** Escaped text never begins with a bare quote. *)
Lemma escape_head (s : string) :
  match replace_all "034" (backslash +:+ dquote) s with
  | String d _ => Ascii.eqb d "034" = false
  | EmptyString => True
  end.
Proof.
  destruct s as [|c s]; [exact I|].
  rewrite escape_cons. destruct (Ascii.eqb "034" c) eqn:Hc; [reflexivity|].
  rewrite Ascii.eqb_sym. exact Hc.
Qed.

Lemma unescape_keep (c : ascii) (s : string) :
  match s with
  | String d _ => Ascii.eqb c "092" && Ascii.eqb d "034" = false
  | EmptyString => True
  end ->
  Views.unescape_quotes (String c s) = String c (Views.unescape_quotes s).
Proof.
  destruct s as [|d s]; [reflexivity|]. intros H.
  change (Views.unescape_quotes (String c (String d s)))
    with (if Ascii.eqb c "092" && Ascii.eqb d "034"
          then Views.unescape_quotes (String d s)
          else String c (Views.unescape_quotes (String d s))).
  rewrite H. reflexivity.
Qed.

(** Taking the backslashes away again gives back the text that was
    escaped: escaping changed nothing else. *)
Lemma unescape_escape (s : string) :
  Views.unescape_quotes (replace_all "034" (backslash +:+ dquote) s) = s.
Proof.
  induction s as [|c s IH]; [reflexivity|].
  rewrite escape_cons. destruct (Ascii.eqb "034" c) eqn:Hc.
  - apply Ascii.eqb_eq in Hc. subst c.
    change (Views.unescape_quotes
              (String "092" (String "034"
                 (replace_all "034" (backslash +:+ dquote) s))))
      with (Views.unescape_quotes
              (String "034" (replace_all "034" (backslash +:+ dquote) s))).
    rewrite unescape_keep, IH; [reflexivity|].
    destruct (replace_all "034" (backslash +:+ dquote) s); [exact I|].
    reflexivity.
  - rewrite unescape_keep, IH; [reflexivity|].
    pose proof (escape_head s) as Hhead.
    destruct (replace_all "034" (backslash +:+ dquote) s) as [|d rest];
      [exact I|].
    rewrite Hhead. apply andb_false_r.
Qed.

Lemma count_char_cons (c d : ascii) (s : string) :
  Views.count_char c (String d s)
  = (if Ascii.eqb c d then 1 else 0) + Views.count_char c s.
Proof. reflexivity. Qed.

Lemma escape_without_quotes (s : string) :
  Views.count_char "034" s = 0 ->
  replace_all "034" (backslash +:+ dquote) s = s.
Proof.
  induction s as [|c s IH]; [reflexivity|].
  rewrite escape_cons, count_char_cons.
  destruct (Ascii.eqb "034" c); [discriminate|].
  intros H. f_equal. apply IH. exact H.
Qed.

Lemma escape_length (s : string) :
  String.length (replace_all "034" (backslash +:+ dquote) s)
  = String.length s + Views.count_char "034" s.
Proof.
  induction s as [|c s IH]; [reflexivity|].
  rewrite escape_cons, count_char_cons.
  destruct (Ascii.eqb "034" c); cbn [String.length]; rewrite IH; lia.
Qed.

End StringFacts.

(* ===================================================================== *)
(** * Region resolution                                                  *)
(* ===================================================================== *)

Section RegionResolution.

Import Client RegionHelpers Scenarios.

Lemma region_token_is_EU (token : option string) :
  String.eqb (or_default (toUpperCase <$> token) "US") "EU" = anyCaseEU token.
Proof.
  destruct token as [s|]; [|reflexivity]. simpl.
  rewrite toUpperCase_truthy.
  destruct (truthy_string s) eqn:Hs.
  - apply toUpperCase_is_EU.
  - apply truthy_string_empty in Hs. subst s. reflexivity.
Qed.

Lemma strict_eq_token_is_EU (token : option string) :
  strict_eq_opt (toUpperCase <$> token) "EU" = anyCaseEU token.
Proof. destruct token as [s|]; [apply toUpperCase_is_EU | reflexivity]. Qed.

(** C8. Region resolution is a total function of the region token: the
    NerdGraph URL computed from [NEW_RELIC_REGION] is the EU host exactly
    when the token spells "EU" in some letter case, and the default US host
    for every other token, the empty one and an absent one included; the
    test helpers qualify the host the same way, and the URL is the host
    they predict. *)
Theorem region_resolution_total (env : gmap string string) :
  let token := env !! "NEW_RELIC_REGION" in
  NERDGRAPH_URL env = (if anyCaseEU token then EU_URL else US_URL)
  /\ getRegionSubdomain env = (if anyCaseEU token then ".eu" else "")
  /\ getTestRegion env = (if anyCaseEU token then "EU" else "US")
  /\ NERDGRAPH_URL env
     = "https://api" +:+ getRegionSubdomain env +:+ ".newrelic.com/graphql".
Proof.
  intros token.
  assert (Hurl : NERDGRAPH_URL env = if anyCaseEU token then EU_URL else US_URL).
  { unfold NERDGRAPH_URL, getNerdGraphUrl. fold token.
    rewrite region_token_is_EU. reflexivity. }
  assert (Hsub : getRegionSubdomain env = if anyCaseEU token then ".eu" else "").
  { unfold getRegionSubdomain. fold token.
    rewrite strict_eq_token_is_EU. reflexivity. }
  repeat split; try assumption.
  - unfold getTestRegion. fold token. simpl.
    rewrite strict_eq_token_is_EU. reflexivity.
  - rewrite Hurl, Hsub. destruct (anyCaseEU token); reflexivity.
Qed.

(** [getNerdGraphUrl] itself compares exactly: the letter case is folded by
    its callers. *)
Example getNerdGraphUrl_lower_case :
  getNerdGraphUrl "eu" = US_URL /\ getNerdGraphUrl "EU" = EU_URL
  /\ NERDGRAPH_URL {[ "NEW_RELIC_REGION" := "eu" ]} = EU_URL
  /\ NERDGRAPH_URL {[ "NEW_RELIC_REGION" := "" ]} = US_URL
  /\ NERDGRAPH_URL {[ "NEW_RELIC_REGION" := "APAC" ]} = US_URL
  /\ NERDGRAPH_URL ∅ = US_URL.
Proof. repeat split; vm_compute; reflexivity. Qed.

End RegionResolution.

(* ===================================================================== *)
(** * The GraphQL transport                                              *)
(* ===================================================================== *)

Section Transport.

Import Client Scenarios.

Context {T : Type}.

(** The environment the module was loaded in. *)
Variable load_env : gmap string string.

Variable this : NewRelicClient.
Variable query : string.
Variable variables : option Value.

Local Abbreviation request := (nerdGraphRequest load_env this query variables).
Local Abbreviation after w := (record_sent request w).

Lemma key_check (k : string) :
  negb (truthy_string k) || String.eqb k "" || (String.length k =? 0)%nat
  = negb (truthy_string k).
Proof. destruct k; reflexivity. Qed.

(** Without a key the call fails before [fetch] is reached. *)
Lemma execute_without_key (w : World T) :
  truthy_string (apiKey this) = false ->
  executeNerdGraphQuery load_env this query variables w = (Throws missingKey, w).
Proof.
  intros Hk. unfold executeNerdGraphQuery.
  rewrite key_check, Hk. reflexivity.
Qed.

(** With a key, one request leaves and the response decides the outcome. *)
Lemma execute_with_key (w : World T) :
  truthy_string (apiKey this) = true ->
  executeNerdGraphQuery load_env this query variables w
  = match fetch w (sent w) request with
    | Rejected e => (Throws e, after w)
    | Resolved r =>
        if ok r then (outcome_of (json r), after w)
        else if (status r =? 401)%Z
        then (Throws (Error "Unauthorized: Invalid API key"), after w)
        else (Throws (Error ("NerdGraph API error: "
                             +:+ number_toString (status r)
                             +:+ " " +:+ statusText r)), after w)
    end.
Proof.
  intros Hk. unfold executeNerdGraphQuery.
  rewrite key_check, Hk. simpl.
  unfold bind, js_fetch, await.
  destruct (fetch w (sent w) request) as [r|e]; simpl; [|reflexivity].
  destruct (ok r); simpl; [reflexivity|].
  destruct (status r =? 401)%Z; reflexivity.
Qed.

Lemma ok_iff (r : FetchResponse T) :
  ok r = true <-> (200 <= status r <= 299)%Z.
Proof. unfold ok. rewrite andb_true_iff, !Z.leb_le. tauto. Qed.

(** With a key exactly one request leaves, whatever comes back. *)
Lemma execute_sends_one (w : World T) :
  truthy_string (apiKey this) = true ->
  snd (executeNerdGraphQuery load_env this query variables w) = after w.
Proof.
  intros Hk. rewrite (execute_with_key w Hk).
  destruct (fetch w (sent w) request) as [r|e]; [|reflexivity].
  destruct (ok r); [reflexivity|].
  destruct (status r =? 401)%Z; reflexivity.
Qed.

(** C5 (amended). On a call that reaches the network: a 401 response fails
    with exactly "Unauthorized: Invalid API key"; any other response
    outside 200..299 fails with "NerdGraph API error: <status> <reason>", a
    message that contains the decimal status and the reason phrase; a
    response inside 200..299 raises no status error, and the call settles
    the way reading the body does: it returns the envelope when the body
    can be read and fails with the reader's error when it cannot. *)
Theorem transport_status_errors (w : World T) (r : FetchResponse T) :
  truthy_string (apiKey this) = true ->
  fetch w (sent w) request = Resolved r ->
  let outcome := fst (executeNerdGraphQuery load_env this query variables w) in
  (status r = 401%Z -> outcome = Throws (Error "Unauthorized: Invalid API key"))
  /\ (~ (200 <= status r <= 299)%Z -> status r <> 401%Z ->
      exists msg,
        outcome = Throws (Error msg)
        /\ msg = "NerdGraph API error: " +:+ number_toString (status r)
                 +:+ " " +:+ statusText r
        /\ includes msg (number_toString (status r)) = true
        /\ includes msg (statusText r) = true)
  /\ ((200 <= status r <= 299)%Z ->
      outcome = outcome_of (json r)
      /\ (forall resp : GraphQLResponse T,
            json r = Resolved resp -> outcome = Returns resp)
      /\ (forall e : Exn, json r = Rejected e -> outcome = Throws e)).
Proof.
  intros Hk Hr outcome. subst outcome.
  rewrite (execute_with_key w Hk), Hr.
  split; [|split].
  - intros H401.
    assert (Hok : ok r = false) by (unfold ok; rewrite H401; reflexivity).
    rewrite Hok, H401. reflexivity.
  - intros Hnot Hne.
    assert (Hok : ok r = false).
    { destruct (ok r) eqn:E; [|reflexivity]. apply ok_iff in E. tauto. }
    rewrite Hok. apply Z.eqb_neq in Hne. rewrite Hne. simpl.
    eexists. split; [reflexivity|]. split; [reflexivity|]. split.
    + apply includes_mid.
    + apply includes_skip, includes_skip, includes_end.
  - intros Hin. apply ok_iff in Hin. rewrite Hin. cbn [fst].
    split; [reflexivity|]. split; intros ? ->; reflexivity.
Qed.

(** The environment is not consulted by a call: changing a variable
    changes neither what the call does nor what it leaves behind. *)
Lemma execute_env_frame (w : World T) (k v : string) :
  executeNerdGraphQuery load_env this query variables (set_env k v w)
  = (fst (executeNerdGraphQuery load_env this query variables w),
     set_env k v (snd (executeNerdGraphQuery load_env this query variables w))).
Proof.
  destruct (truthy_string (apiKey this)) eqn:Hk.
  - rewrite !(execute_with_key _ Hk). simpl.
    destruct (fetch w (sent w) request) as [r|e]; [|reflexivity].
    destruct (ok r); [reflexivity|].
    destruct (status r =? 401)%Z; reflexivity.
  - rewrite !(execute_without_key _ Hk). reflexivity.
Qed.

(** C6 (amended). The key check runs on every call, in whatever state the
    process is, before anything is sent: a client whose stored key is empty
    fails with the missing-key error and leaves the world untouched, a
    client whose stored key is not empty sends exactly one request, which
    carries that key. The key checked is the one the constructor stored:
    setting an environment variable after construction changes nothing
    about a later call on that client. *)
Theorem key_checked_on_every_call (w : World T) :
  (truthy_string (apiKey this) = false ->
     executeNerdGraphQuery load_env this query variables w
     = (Throws missingKey, w))
  /\ (truthy_string (apiKey this) = true ->
      sent (snd (executeNerdGraphQuery load_env this query variables w))
      = sent w ++ [request]
      /\ In ("API-Key", apiKey this) (req_headers request))
  /\ (forall k v : string,
        executeNerdGraphQuery load_env this query variables (set_env k v w)
        = (fst (executeNerdGraphQuery load_env this query variables w),
           set_env k v
             (snd (executeNerdGraphQuery load_env this query variables w)))).
Proof.
  split; [|split].
  - apply execute_without_key.
  - intros Hk. rewrite (execute_sends_one w Hk). split; [reflexivity|].
    simpl. auto.
  - apply execute_env_frame.
Qed.

(** Every request a call sends goes to the URL computed at load time. *)
Lemma execute_targets_load_url (w : World T) :
  sent (snd (executeNerdGraphQuery load_env this query variables w)) = sent w
  \/ exists req,
       sent (snd (executeNerdGraphQuery load_env this query variables w))
       = sent w ++ [req]
       /\ req_url req = NERDGRAPH_URL load_env.
Proof.
  destruct (truthy_string (apiKey this)) eqn:Hk.
  - right. exists request. rewrite (execute_sends_one w Hk). split; reflexivity.
  - left. rewrite (execute_without_key w Hk). reflexivity.
Qed.

End Transport.

(* ===================================================================== *)
(** * Construction: the stored key, the dropped region                   *)
(* ===================================================================== *)

Section Construction.

Import Client HttpServer Scenarios.

Context {T : Type}.

(** The environment the module was loaded in. *)
Variable load_env : gmap string string.

Lemma or_default_truthy (o : option string) :
  truthy_string (or_default o "") = truthy_opt o.
Proof. destruct o as [s|]; [destruct s|]; reflexivity. Qed.

(** The stored key is non-empty exactly when the argument or the
    environment provides one. *)
Lemma stored_key_truthy (a d : option string) (env : gmap string string) :
  truthy_string (apiKey (constructor_ a d env))
  = truthy_opt a || truthy_opt (env !! "NEW_RELIC_API_KEY").
Proof.
  unfold constructor_. simpl. rewrite or_default_truthy. unfold or_else.
  destruct (truthy_opt a) eqn:Ha; simpl; [exact Ha | reflexivity].
Qed.

Lemma record_sent_neq (req : HttpRequest) (w : World T) : record_sent req w <> w.
Proof.
  intros H. apply (f_equal sent) in H. simpl in H.
  apply (f_equal length) in H. rewrite length_app in H. simpl in H. lia.
Qed.

Lemma session_client (headers env : gmap string string) (ctx : SessionContext) :
  createSessionFromHeaders headers env = Some ctx ->
  truthy_string (apiKey (ctx_client ctx)) = true
  /\ ctx_client ctx = constructor_ (Some (ctx_apiKey ctx)) (ctx_accountId ctx) env
  /\ ctx_region ctx
     = toUpperCase (or_default (headers !! "x-new-relic-region") "US").
Proof.
  unfold createSessionFromHeaders.
  destruct (headers !! "x-new-relic-api-key") as [key|]; [|discriminate].
  destruct (truthy_string key) eqn:Hkey; simpl; [|discriminate].
  intros [= <-]. split; [|split]; [|reflexivity|reflexivity].
  change (truthy_string
            (apiKey (constructor_ (Some key)
                       (headers !! "x-new-relic-account-id") env)) = true).
  rewrite stored_key_truthy. simpl. rewrite Hkey. reflexivity.
Qed.

(** C9. The NerdGraph URL is a function of [NEW_RELIC_REGION] as it was
    when the module was loaded; every request of every client goes to it;
    a third constructor argument is dropped, so the client of a session
    created from headers, whatever region the headers name, sends its one
    request to that same URL. *)
Theorem endpoint_fixed_at_module_load :
  (forall env' : gmap string string,
     env' !! "NEW_RELIC_REGION" = load_env !! "NEW_RELIC_REGION" ->
     NERDGRAPH_URL env' = NERDGRAPH_URL load_env)
  /\ (forall (a d region : option string) (env : gmap string string),
        new_NewRelicClient [a; d; region] env = constructor_ a d env)
  /\ (forall (this : NewRelicClient) (q : string) (v : option Value)
             (w : World T),
        sent (snd (executeNerdGraphQuery load_env this q v w)) = sent w
        \/ exists req,
             sent (snd (executeNerdGraphQuery load_env this q v w))
             = sent w ++ [req]
             /\ req_url req = NERDGRAPH_URL load_env)
  /\ (forall (headers env : gmap string string) (ctx : SessionContext)
             (q : string) (v : option Value) (w : World T),
        createSessionFromHeaders headers env = Some ctx ->
        exists req,
          sent (snd (executeNerdGraphQuery load_env (ctx_client ctx) q v w))
          = sent w ++ [req]
          /\ req_url req = NERDGRAPH_URL load_env).
Proof.
  split; [|split; [|split]].
  - intros env' Heq. unfold NERDGRAPH_URL. rewrite Heq. reflexivity.
  - reflexivity.
  - intros this q v w. apply execute_targets_load_url.
  - intros headers env ctx q v w Hctx.
    destruct (session_client _ _ _ Hctx) as (Hkey & _ & _).
    exists (nerdGraphRequest load_env (ctx_client ctx) q v).
    rewrite (execute_sends_one _ _ _ _ _ Hkey). split; reflexivity.
Qed.

(** C10. A constructor argument that is absent or empty falls back to the
    environment of the moment of construction, for the key (with the empty
    string as last resort) and for the default account id alike; a present,
    non-empty argument wins. A call fails with the missing-key error
    without sending anything exactly when the argument and the environment
    variable were both absent or empty. *)
Theorem constructor_env_fallback (a d : option string)
    (env : gmap string string) (q : string) (v : option Value) (w : World T) :
  let this := constructor_ a d env in
  (truthy_opt a = false ->
     apiKey this = or_default (env !! "NEW_RELIC_API_KEY") "")
  /\ (truthy_opt a = true -> a = Some (apiKey this))
  /\ (truthy_opt d = false ->
      defaultAccountId this = env !! "NEW_RELIC_ACCOUNT_ID")
  /\ (truthy_opt d = true -> defaultAccountId this = d)
  /\ (executeNerdGraphQuery load_env this q v w = (Throws missingKey, w)
      <-> truthy_opt a = false
          /\ truthy_opt (env !! "NEW_RELIC_API_KEY") = false).
Proof.
  intros this. subst this.
  split; [|split; [|split; [|split; [|split]]]].
  - intros Ha. unfold constructor_, or_else. simpl. rewrite Ha. reflexivity.
  - intros Ha. unfold constructor_, or_else. simpl. rewrite Ha.
    destruct a as [s|]; [|discriminate]. simpl in *. rewrite Ha. reflexivity.
  - intros Hd. unfold constructor_, or_else. simpl. rewrite Hd. reflexivity.
  - intros Hd. unfold constructor_, or_else. simpl. rewrite Hd. reflexivity.
  - intros Hthrow.
    destruct (truthy_string (apiKey (constructor_ a d env))) eqn:Hk.
    + apply (f_equal snd) in Hthrow.
      rewrite (execute_sends_one _ _ _ _ _ Hk) in Hthrow.
      simpl in Hthrow. apply record_sent_neq in Hthrow. contradiction.
    + rewrite stored_key_truthy in Hk. apply orb_false_iff in Hk. exact Hk.
  - intros [Ha He]. apply execute_without_key.
    rewrite stored_key_truthy, Ha, He. reflexivity.
Qed.

End Construction.

(* ===================================================================== *)
(** * runNrqlQuery and the errors of the envelope                        *)
(* ===================================================================== *)

Section Nrql.

Import Client Scenarios.

Variable load_env : gmap string string.
Variable this : NewRelicClient.
Variable params : NrqlParams.

Local Abbreviation request :=
  (nerdGraphRequest load_env this (nrqlDocument params) None).

(** What the [catch] clause makes of a message. *)
Lemma nrqlCatch_message {S A} (m : string) (s : S) :
  @nrqlCatch S A (Error m) s
  = (Throws (Error (if includes m "Syntax error"
                    then "NRQL Syntax error: " +:+ m else m)), s).
Proof. unfold nrqlCatch. simpl. destruct (includes m "Syntax error"); reflexivity. Qed.

Lemma test_digits_truthy (s : string) :
  test_digits s = true -> truthy_string s = true.
Proof. destruct s; [discriminate | reflexivity]. Qed.

(** A call with valid arguments whose response is 2xx with a readable body:
    the envelope alone decides. *)
Lemma runNrqlQuery_decoded (w : World NrqlResponse)
    (r : FetchResponse NrqlResponse) (resp : GraphQLResponse NrqlResponse) :
  truthy_string (nrql params) = true ->
  test_digits (accountId params) = true ->
  truthy_string (apiKey this) = true ->
  fetch w (sent w) request = Resolved r ->
  ok r = true ->
  json r = Resolved resp ->
  runNrqlQuery load_env this params w
  = (match errors resp with
     | Some errs =>
         Throws (Error (if includes (firstErrorMessage errs) "Syntax error"
                        then "NRQL Syntax error: " +:+ firstErrorMessage errs
                        else firstErrorMessage errs))
     | None =>
         match nrqlResultOf resp with
         | None => Throws (Error "No results returned from NRQL query")
         | Some node =>
             Returns {| results := default [] (nrql_results node);
                        metadata :=
                          spreadMetadata (nrql_metadata node)
                            (includes (toLowerCase (nrql params)) "timeseries") |}
         end
     end, record_sent request w).
Proof.
  intros Hq Hid Hk Hr Hok Hjson.
  unfold runNrqlQuery.
  rewrite Hq, Hid, (test_digits_truthy _ Hid). simpl.
  unfold try_catch, bind.
  rewrite (execute_with_key load_env this _ None w Hk), Hr, Hok, Hjson. simpl.
  destruct (errors resp) as [errs|].
  - unfold throw. apply nrqlCatch_message.
  - destruct (nrqlResultOf resp) as [node|]; [reflexivity|].
    unfold throw. apply nrqlCatch_message.
Qed.

(** C7 (amended). On a call with valid arguments, a key, and a 2xx response
    whose body decodes to an envelope: the call fails through the errors
    check exactly when the envelope has an [errors] array, an empty one
    included and whatever [data] holds; the message is that of the first
    entry when there is one with a non-empty message and "NRQL query
    failed" otherwise, prefixed with "NRQL Syntax error: " exactly when it
    contains "Syntax error". Without an [errors] array the errors check
    does not fail the call: the result is returned when [data] carries an
    nrql node, and the call fails with "No results returned from NRQL
    query" when it does not. *)
Theorem nrql_errors_decide_failure (w : World NrqlResponse)
    (r : FetchResponse NrqlResponse) (resp : GraphQLResponse NrqlResponse) :
  truthy_string (nrql params) = true ->
  test_digits (accountId params) = true ->
  truthy_string (apiKey this) = true ->
  fetch w (sent w) request = Resolved r ->
  ok r = true ->
  json r = Resolved resp ->
  let outcome := fst (runNrqlQuery load_env this params w) in
  (forall errs, errors resp = Some errs ->
     exists m,
       (m = match errs with
            | e :: _ => if truthy_string (message e) then message e
                        else "NRQL query failed"
            | [] => "NRQL query failed"
            end)
       /\ outcome
          = Throws (Error (if includes m "Syntax error"
                           then "NRQL Syntax error: " +:+ m else m)))
  /\ (errors resp = None ->
      forall node, nrqlResultOf resp = Some node ->
      outcome
      = Returns {| results := default [] (nrql_results node);
                   metadata :=
                     spreadMetadata (nrql_metadata node)
                       (includes (toLowerCase (nrql params)) "timeseries") |})
  /\ (errors resp = None ->
      nrqlResultOf resp = None ->
      outcome = Throws (Error "No results returned from NRQL query")).
Proof.
  intros Hq Hid Hk Hr Hok Hjson outcome. subst outcome.
  rewrite (runNrqlQuery_decoded w r resp Hq Hid Hk Hr Hok Hjson). simpl.
  split; [|split].
  - intros errs ->. exists (firstErrorMessage errs). split; [|reflexivity].
    destruct errs as [|e rest]; reflexivity.
  - intros -> node ->. reflexivity.
  - intros -> ->. reflexivity.
Qed.

End Nrql.

(* ===================================================================== *)
(** * REST list operations: pagination                                   *)
(* ===================================================================== *)

Section Pagination.

Import Client Rest.

Variable upstream : Upstream (list Value).
Variable requestFor : PageParams -> RestCall.

Local Abbreviation Chain := (PageChain upstream requestFor).
Local Abbreviation calls := (chainCalls requestFor).
Local Abbreviation itemsOf pages := (concat (map rest_data pages)).

Lemma fetchPage_resolved (pp : PageParams) (log : list RestCall)
    (page : RestResponse (list Value)) :
  upstream log (requestFor pp) = Resolved page ->
  fetchPage upstream requestFor pp log = (Returns page, log ++ [requestFor pp]).
Proof. intros H. unfold fetchPage, rest_call, await. rewrite H. reflexivity. Qed.

(** Walking a run of pages with enough fuel returns all their items in
    order, after as many calls as there are pages. *)
Lemma followLinks_chain (log : list RestCall) (pp : PageParams)
    (pages : list (RestResponse (list Value))) :
  Chain log pp pages ->
  forall (fuel : nat) (acc : list Value),
    length pages <= fuel ->
    followLinks upstream requestFor fuel pp acc log
    = (Returns (acc ++ itemsOf pages), log ++ calls pp pages).
Proof.
  induction 1 as [log pp page Hup Hnext
                 |log pp page next rest Hup Hnext _ IH];
    intros fuel acc Hfuel;
    (destruct fuel as [|fuel]; [simpl in Hfuel; lia|]);
    simpl; unfold bind;
    rewrite (fetchPage_resolved _ _ _ Hup), Hnext.
  - rewrite app_nil_r. reflexivity.
  - rewrite IH by (simpl in Hfuel; lia).
    rewrite <- !app_assoc. reflexivity.
Qed.

Lemma chainCalls_length (log : list RestCall) (pp : PageParams)
    (pages : list (RestResponse (list Value))) :
  Chain log pp pages -> length (calls pp pages) = length pages.
Proof.
  induction 1 as [log pp page _ Hnext|log pp page next rest _ Hnext _ IH];
    simpl; rewrite Hnext; [reflexivity | rewrite IH; reflexivity].
Qed.

Lemma concat_uniform_length {A} (k : nat) (ls : list (list A)) :
  Forall (fun l => length l = k) ls -> length (concat ls) = length ls * k.
Proof.
  induction 1 as [|l ls Hl _ IH]; simpl; [reflexivity|].
  rewrite length_app, Hl, IH. reflexivity.
Qed.

(** C1. With auto-pagination on, a list operation served a run of N pages
    (each but the last with a [next] relation) follows every [next] in turn:
    it issues the N requests of the walk, in order, and returns the pages'
    items concatenated in fetch order; when every page holds k items the
    result holds N * k. *)
Theorem auto_paginate_concatenates (log : list RestCall)
    (pages : list (RestResponse (list Value))) (fuel : nat) :
  Chain log FirstPage pages ->
  length pages <= fuel ->
  listPages upstream requestFor fuel true log
  = (Returns (itemsOf pages), log ++ calls FirstPage pages)
  /\ length (calls FirstPage pages) = length pages
  /\ (forall k : nat,
        Forall (fun page => length (rest_data page) = k) pages ->
        length (itemsOf pages) = length pages * k).
Proof.
  intros Hchain Hfuel. split; [|split].
  - unfold listPages.
    rewrite (followLinks_chain _ _ _ Hchain fuel [] Hfuel). reflexivity.
  - exact (chainCalls_length _ _ _ Hchain).
  - intros k Hk.
    rewrite (concat_uniform_length k), length_map; [reflexivity|].
    apply Forall_map. exact Hk.
Qed.

(** C2. With auto-pagination off, a list operation issues the request for
    the first page and nothing else, and returns that page's items as they
    are, whether or not the page carries a [next] relation; a failed fetch
    is the operation's failure. *)
Theorem single_page_without_auto_paginate (log : list RestCall) (fuel : nat) :
  snd (listPages upstream requestFor fuel false log)
  = log ++ [requestFor FirstPage]
  /\ (forall page : RestResponse (list Value),
        upstream log (requestFor FirstPage) = Resolved page ->
        fst (listPages upstream requestFor fuel false log)
        = Returns (rest_data page))
  /\ (forall e : Exn,
        upstream log (requestFor FirstPage) = Rejected e ->
        fst (listPages upstream requestFor fuel false log) = Throws e).
Proof.
  unfold listPages, firstPageOnly, bind, fetchPage, rest_call, await.
  destruct (upstream log (requestFor FirstPage)) as [page|e]; simpl.
  - split; [reflexivity|]. split; [intros ? [= <-]; reflexivity | discriminate].
  - split; [reflexivity|]. split; [discriminate | intros ? [= <-]; reflexivity].
Qed.

End Pagination.

(* ===================================================================== *)
(** * REST adapters: incident filters, the delete gate                   *)
(* ===================================================================== *)

Section Adapters.

Import Client Rest.

Variable upstream : Upstream (list Value).
Variable followLink : string -> RestCall.

Lemma filter_twice {A} (f g : A -> bool) (l : list A) :
  List.filter g (List.filter f l) = List.filter (fun x => f x && g x) l.
Proof.
  induction l as [|x l IH]; simpl; [reflexivity|].
  destruct (f x); simpl; [destruct (g x)|]; rewrite IH; reflexivity.
Qed.

Lemma filter_all {A} (l : list A) : List.filter (fun _ => true) l = l.
Proof. induction l as [|x l IH]; simpl; [|rewrite IH]; reflexivity. Qed.

(** The two filters in sequence keep what [keeps] keeps, in order. *)
Lemma clientSideFilter_keeps (only_open : option bool)
    (priority : option string) (items : list Value) :
  clientSideFilter only_open priority items
  = List.filter (keeps only_open priority) items.
Proof.
  unfold clientSideFilter, keeps.
  destruct (default false only_open), priority as [p|].
  - apply filter_twice.
  - apply filter_ext. intros item. rewrite andb_true_r. reflexivity.
  - reflexivity.
  - symmetry. apply filter_all.
Qed.

Lemma strict_eq_string_spec (v : Value) (s : string) :
  strict_eq_string v s = true <-> v = Str s.
Proof.
  destruct v; simpl; try (split; [discriminate | intros [=]]).
  rewrite String.eqb_eq. split; [intros ->; reflexivity | intros [= ->]; reflexivity].
Qed.

Lemma keeps_spec (only_open : option bool) (priority : option string)
    (item : Value) :
  keeps only_open priority item = true
  <-> (only_open = Some true -> truthy (get item "closed_at") = false)
      /\ (forall p, priority = Some p -> get item "priority" = Str p).
Proof.
  unfold keeps, isOpen, hasPriority. rewrite andb_true_iff. split.
  - intros [Ho Hp]. split.
    + intros ->. simpl in Ho. apply negb_true_iff. exact Ho.
    + intros p ->. apply strict_eq_string_spec. exact Hp.
  - intros [Ho Hp]. split.
    + destruct only_open as [[]|]; simpl; try reflexivity.
      apply negb_true_iff. apply Ho. reflexivity.
    + destruct priority as [p|]; [|reflexivity].
      apply strict_eq_string_spec. apply Hp. reflexivity.
Qed.

(** C3. [listIncidents] filters what the list operation returned: its
    upstream calls are those of the unfiltered listing, and with
    auto-pagination on and a run of pages served, the filters run once over
    the concatenation of all the pages. An item is retained, in place,
    exactly when it was fetched, its [closed_at] is falsy if [only_open] is
    set, and its [priority] is the very string asked for if one is. *)
Theorem incidents_filtered_after_fetch (args : ListIncidentsArgs)
    (log : list RestCall) (fuel : nat) :
  let keep := keeps (li_only_open args) (li_priority args) in
  (forall (items : list Value) (log' : list RestCall),
     listPages upstream (incidentsRequest followLink args) fuel
       (default false (li_auto_paginate args)) log = (Returns items, log') ->
     listIncidents upstream followLink fuel args log
     = (Returns (List.filter keep items), log'))
  /\ (forall pages : list (RestResponse (list Value)),
        li_auto_paginate args = Some true ->
        PageChain upstream (incidentsRequest followLink args)
          log FirstPage pages ->
        length pages <= fuel ->
        listIncidents upstream followLink fuel args log
        = (Returns (List.filter keep (concat (map rest_data pages))),
           log ++ chainCalls (incidentsRequest followLink args)
                    FirstPage pages))
  /\ (forall (item : Value) (items : list Value),
        In item (List.filter keep items)
        <-> In item items
            /\ (li_only_open args = Some true ->
                truthy (get item "closed_at") = false)
            /\ (forall p, li_priority args = Some p ->
                          get item "priority" = Str p)).
Proof.
  intros keep.
  assert (Hlist : forall items log',
    listPages upstream (incidentsRequest followLink args) fuel
      (default false (li_auto_paginate args)) log = (Returns items, log') ->
    listIncidents upstream followLink fuel args log
    = (Returns (List.filter keep items), log')).
  { intros items log' H. unfold listIncidents, bind. rewrite H.
    unfold ret. rewrite clientSideFilter_keeps. reflexivity. }
  split; [exact Hlist|]. split.
  - intros pages Hauto Hchain Hfuel. apply Hlist. rewrite Hauto. simpl.
    unfold listPages.
    rewrite (followLinks_chain _ _ _ _ _ Hchain fuel [] Hfuel). reflexivity.
  - intros item items. rewrite filter_In. unfold keep. rewrite keeps_spec.
    reflexivity.
Qed.

(** The path of a deployment, spelled out. *)
Lemma deploymentPath_spelled (application_id id : Z) :
  deploymentPath application_id id
  = "/applications/" +:+ number_toString application_id
    +:+ "/deployments/" +:+ number_toString id.
Proof.
  unfold deploymentPath, deploymentsPath. rewrite !append_assoc. reflexivity.
Qed.

(** C4. [delete] refuses when [confirm] is absent or otherwise falsy: it
    fails with a precondition error and no call reaches the transport. With
    [confirm] true it issues one call, the DELETE of
    "/applications/<application_id>/deployments/<id>" with both numbers in
    decimal, and its outcome is that call's. *)
Theorem delete_requires_confirm {T} (up : Upstream T)
    (args : DeleteDeploymentArgs) (log : list RestCall) :
  (truthy (dd_confirm args) = false ->
     exists e : Exn,
       deleteDeployment up args log = (Throws e, log)
       /\ exn_class e = ClsPreconditionError)
  /\ (dd_confirm args = Bool true ->
      deleteDeployment up args log
      = (outcome_of
           (up log (Delete ("/applications/"
                            +:+ number_toString (dd_application_id args)
                            +:+ "/deployments/"
                            +:+ number_toString (dd_id args)))),
         log ++ [Delete ("/applications/"
                         +:+ number_toString (dd_application_id args)
                         +:+ "/deployments/"
                         +:+ number_toString (dd_id args))])).
Proof.
  unfold deleteDeployment. split.
  - intros ->. exists confirmRequired. split; reflexivity.
  - intros ->. simpl. rewrite deploymentPath_spelled. reflexivity.
Qed.

End Adapters.

(* ===================================================================== *)
(** * The scenarios, replayed                                            *)
(* ===================================================================== *)

Section Replays.

Import Client HttpServer Rest Scenarios.

(** The deployments test: two pages, followed and concatenated. *)
Lemma auto_paginate_concatenates_witness :
  listDeployments (mockQueue deploymentPages) followByUrl 5 deploymentArgs []
  = (Returns [Obj [("id", Num 1)]; Obj [("id", Num 2)]],
     [Get "/applications/1/deployments" None; Get deploymentsNext None]).
Proof.
  assert (Hchain : PageChain (mockQueue deploymentPages)
                     (deploymentsRequest followByUrl deploymentArgs)
                     [] FirstPage deploymentPages).
  { eapply chain_next; [reflexivity | reflexivity |].
    apply chain_last; reflexivity. }
  assert (Hfuel : length deploymentPages <= 5) by (simpl; lia).
  destruct (auto_paginate_concatenates _ _ _ _ _ Hchain Hfuel) as [H _].
  exact H.
Defined.

(** The first-page test: one call, the page as it is, [next] ignored. *)
Lemma single_page_without_auto_paginate_witness :
  nextLink loneIncidentPage = Some "ignored-when-no-auto"
  /\ listPages (mockQueue [loneIncidentPage])
       (incidentsRequest followByUrl
          (mkListIncidentsArgs None (Some false) None None)) 5 false []
     = (Returns [incident 10 "MEDIUM" 0], [Get "/alerts_incidents" None]).
Proof.
  split; [reflexivity|].
  destruct (single_page_without_auto_paginate (mockQueue [loneIncidentPage])
              (incidentsRequest followByUrl
                 (mkListIncidentsArgs None (Some false) None None)) [] 5)
    as (Hsnd & Hfst & _).
  apply injective_projections;
    [exact (Hfst loneIncidentPage eq_refl) | exact Hsnd].
Defined.

(** The incidents test: both pages fetched, then one item retained. *)
Lemma incidents_filtered_after_fetch_witness :
  listIncidents (mockQueue incidentPages) followByUrl 5 incidentArgs []
  = (Returns [incident 1 "HIGH" 0],
     [Get "/alerts_incidents" None; Get incidentsNext None]).
Proof.
  assert (Hchain : PageChain (mockQueue incidentPages)
                     (incidentsRequest followByUrl incidentArgs)
                     [] FirstPage incidentPages).
  { eapply chain_next; [reflexivity | reflexivity |].
    apply chain_last; reflexivity. }
  assert (Hfuel : length incidentPages <= 5) by (simpl; lia).
  destruct (incidents_filtered_after_fetch (mockQueue incidentPages)
              followByUrl incidentArgs [] 5) as (_ & H & _).
  exact (H incidentPages eq_refl Hchain Hfuel).
Defined.

(** The delete test, the same call without [confirm], and a deletion in
    another application. *)
Lemma delete_requires_confirm_witness :
  (exists e : Exn,
     deleteDeployment (mockQueue [deleted])
       (mkDeleteDeploymentArgs 1 2 Undefined) []
     = (Throws e, [])
     /\ exn_class e = ClsPreconditionError)
  /\ deleteDeployment (mockQueue [deleted])
       (mkDeleteDeploymentArgs 1 2 (Bool true)) []
     = (Returns deleted, [Delete "/applications/1/deployments/2"])
  /\ deleteDeployment (mockQueue [deleted])
       (mkDeleteDeploymentArgs 777 999 (Bool true)) []
     = (Returns deleted, [Delete "/applications/777/deployments/999"]).
Proof.
  split; [|split].
  - destruct (delete_requires_confirm (mockQueue [deleted])
                (mkDeleteDeploymentArgs 1 2 Undefined) [])
      as [H _].
    exact (H eq_refl).
  - destruct (delete_requires_confirm (mockQueue [deleted])
                (mkDeleteDeploymentArgs 1 2 (Bool true)) [])
      as [_ H].
    exact (H eq_refl).
  - destruct (delete_requires_confirm (mockQueue [deleted])
                (mkDeleteDeploymentArgs 777 999 (Bool true)) [])
      as [_ H].
    exact (H eq_refl).
Defined.

(** C5, as stated, fails: a response inside 200..299 whose body cannot be
    read makes the call throw. *)
Lemma unreadable_2xx_body_throws :
  ok response204 = true
  /\ fetch world204 (sent world204)
       (nerdGraphRequest ∅ testClient userQuery None) = Resolved response204
  /\ fst (executeNerdGraphQuery ∅ testClient userQuery None world204)
     = Throws emptyBody.
Proof. split; [|split]; reflexivity. Qed.

(** The error test of the client: a 401 has its fixed message, a 500 names
    its status and reason; a 200 with a readable body returns it. *)
Lemma transport_status_errors_witness :
  fst (executeNerdGraphQuery ∅ testClient userQuery None world401)
  = Throws (Error "Unauthorized: Invalid API key")
  /\ fst (executeNerdGraphQuery ∅ testClient userQuery None world500)
     = Throws (Error "NerdGraph API error: 500 Internal Server Error")
  /\ fst (executeNerdGraphQuery ∅ testClient userQuery None
            (mkWorld testEnv (answering response200) []))
     = Returns (mkEnvelope (Some tt) None).
Proof.
  split; [|split].
  - destruct (transport_status_errors ∅ testClient userQuery None
                world401 response401 eq_refl eq_refl) as (H & _).
    exact (H eq_refl).
  - destruct (transport_status_errors ∅ testClient userQuery None
                world500 response500 eq_refl eq_refl) as (_ & H & _).
    destruct H as (msg & -> & -> & _); [simpl; lia | discriminate |].
    reflexivity.
  - destruct (transport_status_errors ∅ testClient userQuery None
                (mkWorld testEnv (answering response200) []) response200
                eq_refl eq_refl) as (_ & _ & H).
    destruct H as (_ & H & _); [simpl; lia|].
    exact (H _ eq_refl).
Defined.

(** C6, as stated, fails: a client constructed while no key was configured
    keeps failing the key check after [NEW_RELIC_API_KEY] has been set, and
    sends nothing; only a client constructed afterwards carries the key. *)
Lemma key_set_after_construction_not_honored :
  process_env keyedWorld !! "NEW_RELIC_API_KEY" = Some "NRAK-SET-LATER"
  /\ executeNerdGraphQuery ∅ bareClient userQuery None keyedWorld
     = (Throws missingKey, keyedWorld)
  /\ sent (snd (executeNerdGraphQuery ∅
                  (constructor_ None None (process_env keyedWorld))
                  userQuery None keyedWorld))
     = [ {| req_url := US_URL;
            req_method := "POST";
            req_headers := [("Content-Type", "application/json");
                            ("API-Key", "NRAK-SET-LATER")];
            req_body := mkBody userQuery None |} ].
Proof. split; [|split]; reflexivity. Qed.

(** The key check on the key-less client, before and after the
    environment changes. *)
Lemma key_checked_on_every_call_witness :
  executeNerdGraphQuery ∅ bareClient userQuery None bareWorld
  = (Throws missingKey, bareWorld)
  /\ executeNerdGraphQuery ∅ bareClient userQuery None
       (set_env "NEW_RELIC_API_KEY" "NRAK-SET-LATER" bareWorld)
     = (Throws missingKey,
        set_env "NEW_RELIC_API_KEY" "NRAK-SET-LATER" bareWorld)
  /\ sent (snd (executeNerdGraphQuery ∅ testClient userQuery None world500))
     = [nerdGraphRequest ∅ testClient userQuery None].
Proof.
  destruct (key_checked_on_every_call (T:=unit) ∅ bareClient userQuery None
              bareWorld) as (Hnone & _ & Hframe).
  destruct (key_checked_on_every_call (T:=unit) ∅ testClient userQuery None
              world500) as (_ & Hsome & _).
  split; [exact (Hnone eq_refl)|]. split.
  - rewrite Hframe, (Hnone eq_refl). reflexivity.
  - exact (proj1 (Hsome eq_refl)).
Defined.

(** C7, as stated, fails: an [errors] array that is present and empty,
    next to complete data, makes the call fail all the same. *)
Lemma empty_errors_array_fails :
  errors emptyErrors = Some []
  /\ nrqlResultOf emptyErrors = Some countNode
  /\ fst (runNrqlQuery ∅ testClient countQuery emptyErrorsWorld)
     = Throws (Error "NRQL query failed").
Proof. split; [|split]; reflexivity. Qed.

(** A syntax error reported next to data: the call fails, re-labeled. *)
Lemma nrql_errors_decide_failure_witness :
  fst (runNrqlQuery ∅ testClient countQuery syntaxErrorsWorld)
  = Throws (Error "NRQL Syntax error: Syntax error near FROM").
Proof.
  destruct (nrql_errors_decide_failure ∅ testClient countQuery
              syntaxErrorsWorld syntaxResponse syntaxErrors
              eq_refl eq_refl eq_refl eq_refl eq_refl eq_refl) as [H _].
  destruct (H _ eq_refl) as (m & -> & ->). reflexivity.
Defined.

(** A session whose headers name the EU region, in a process loaded for
    the US: the session records "EU", its client calls the US endpoint. *)
Lemma endpoint_fixed_at_module_load_witness :
  exists (ctx : SessionContext) (req : HttpRequest),
    createSessionFromHeaders euHeaders ∅ = Some ctx
    /\ ctx_region ctx = "EU"
    /\ sent (snd (executeNerdGraphQuery ∅ (ctx_client ctx) userQuery None
                    bareWorld)) = [req]
    /\ req_url req = US_URL.
Proof.
  destruct (endpoint_fixed_at_module_load (T:=unit) ∅) as (_ & _ & _ & H).
  destruct (createSessionFromHeaders euHeaders ∅) as [ctx|] eqn:Hctx;
    [|discriminate].
  destruct (H euHeaders ∅ ctx userQuery None bareWorld Hctx)
    as (req & Hsent & Hurl).
  exists ctx, req. split; [reflexivity|]. split.
  - injection Hctx as <-. reflexivity.
  - split; [exact Hsent | exact Hurl].
Defined.

(** Construction without arguments in the test environment takes both
    values from it; in an empty environment the call fails on the key. *)
Lemma constructor_env_fallback_witness :
  apiKey testClient = "test-api-key"
  /\ defaultAccountId testClient = Some "123456"
  /\ executeNerdGraphQuery ∅ (constructor_ (Some "") None ∅) userQuery None
       bareWorld = (Throws missingKey, bareWorld).
Proof.
  destruct (constructor_env_fallback (T:=unit) ∅ None None testEnv
              userQuery None bareWorld) as (Hkey & _ & Hacc & _).
  destruct (constructor_env_fallback (T:=unit) ∅ (Some "") None ∅
              userQuery None bareWorld) as (_ & _ & _ & _ & Hthrow).
  split; [exact (Hkey eq_refl)|]. split; [exact (Hacc eq_refl)|].
  apply Hthrow. split; reflexivity.
Defined.

End Replays.

(* ===================================================================== *)
(** * The client's queries                                               *)
(* ===================================================================== *)

Section ClientQueries.

Import Client Scenarios Views.

Variable load_env : gmap string string.
Variable this : NewRelicClient.

Lemma execute_outcome_state {T} (q : string) (v : option Value) (w : World T) :
  snd (executeNerdGraphQuery load_env this q v w) = w
  \/ snd (executeNerdGraphQuery load_env this q v w)
     = record_sent (nerdGraphRequest load_env this q v) w.
Proof.
  destruct (truthy_string (apiKey this)) eqn:Hk.
  - right. apply execute_sends_one. exact Hk.
  - left. rewrite (execute_without_key load_env this q v w Hk). reflexivity.
Qed.

(** A continuation that only returns or throws leaves the state alone. *)
Lemma bind_pure_state {S A B} (m : Eff S A) (k : A -> Outcome B) (s : S) :
  snd (bind m (fun a s' => (k a, s')) s) = snd (m s).
Proof. unfold bind. destruct (m s) as [[a|e|] s']; reflexivity. Qed.

(** X1. [validateCredentials] never throws: it returns a boolean in every
    world, and that boolean is true exactly when the client has a key, the
    request was answered with a 2xx response whose body could be read, and
    the body carries [data.actor.user]. *)
Theorem validateCredentials_never_throws (w : World UserResponse) :
  exists b : bool,
    fst (validateCredentials load_env this w) = Returns b
    /\ (b = true <->
        truthy_string (apiKey this) = true
        /\ exists (r : FetchResponse UserResponse)
                  (resp : GraphQLResponse UserResponse) (node : UserNode),
             fetch w (sent w) (nerdGraphRequest load_env this userDocument None)
             = Resolved r
             /\ ok r = true
             /\ json r = Resolved resp
             /\ (data resp ≫= user_actor) ≫= actor_user = Some node).
Proof.
  unfold validateCredentials, try_catch, bind.
  destruct (truthy_string (apiKey this)) eqn:Hk.
  - rewrite (execute_with_key load_env this _ None w Hk).
    destruct (fetch w (sent w) _) as [r|e] eqn:Hf.
    + destruct (ok r) eqn:Hok.
      * destruct (json r) as [resp|e] eqn:Hj; simpl.
        -- destruct ((data resp ≫= user_actor) ≫= actor_user) as [node|] eqn:Hu;
             simpl; eexists; (split; [reflexivity|]).
           ++ split; [intros _|reflexivity]. split; [reflexivity|].
              exists r, resp, node. auto.
           ++ split; [discriminate|].
              intros (_ & r' & resp' & node' & Hr' & _ & Hj' & Hu').
              injection Hr' as <-. rewrite Hj in Hj'. injection Hj' as <-.
              rewrite Hu in Hu'. discriminate.
        -- exists false. split; [reflexivity|]. split; [discriminate|].
           intros (_ & r' & resp' & node' & Hr' & _ & Hj' & _).
           injection Hr' as <-. rewrite Hj in Hj'. discriminate.
      * exists false.
        split; [destruct (status r =? 401)%Z; reflexivity|].
        split; [discriminate|].
        intros (_ & r' & resp' & node' & Hr' & Hok' & _).
        injection Hr' as <-. rewrite Hok in Hok'. discriminate.
    + exists false. split; [reflexivity|]. split; [discriminate|].
      intros (_ & r' & resp' & node' & Hr' & _). discriminate.
  - rewrite (execute_without_key load_env this _ None w Hk). simpl.
    exists false. split; [reflexivity|]. split; [discriminate|].
    intros [Hk' _]. discriminate.
Qed.

Lemma nrqlCatch_state {S A} (e : Exn) (s : S) : snd (@nrqlCatch S A e s) = s.
Proof.
  unfold nrqlCatch. destruct (includes (exn_message e) "Syntax error");
    reflexivity.
Qed.

Lemma validateCredentials_state (w : World UserResponse) :
  snd (validateCredentials load_env this w)
  = snd (executeNerdGraphQuery load_env this userDocument None w).
Proof.
  unfold validateCredentials, try_catch, bind.
  destruct (executeNerdGraphQuery load_env this userDocument None w)
    as [[resp|e|] w']; reflexivity.
Qed.

Lemma runNrqlQuery_state (params : NrqlParams) (w : World NrqlResponse) :
  snd (runNrqlQuery load_env this params w) = w
  \/ snd (runNrqlQuery load_env this params w)
     = snd (executeNerdGraphQuery load_env this (nrqlDocument params) None w).
Proof.
  unfold runNrqlQuery.
  destruct (negb (truthy_string (nrql params))); [left; reflexivity|].
  destruct (negb (truthy_string (accountId params))
            || negb (test_digits (accountId params)));
    [left; reflexivity|].
  right. unfold try_catch, bind.
  destruct (executeNerdGraphQuery load_env this (nrqlDocument params) None w)
    as [[resp|e|] w']; simpl.
  - destruct (errors resp) as [errs|]; [apply nrqlCatch_state|].
    destruct (nrqlResultOf resp); [reflexivity | apply nrqlCatch_state].
  - apply nrqlCatch_state.
  - reflexivity.
Qed.

Lemma runNrqlQuery_state_valid (params : NrqlParams) (w : World NrqlResponse) :
  truthy_string (nrql params) = true ->
  test_digits (accountId params) = true ->
  snd (runNrqlQuery load_env this params w)
  = snd (executeNerdGraphQuery load_env this (nrqlDocument params) None w).
Proof.
  intros Hn Hd. unfold runNrqlQuery.
  rewrite Hn, Hd, (test_digits_truthy _ Hd). cbn [negb orb].
  unfold try_catch, bind.
  destruct (executeNerdGraphQuery load_env this (nrqlDocument params) None w)
    as [[resp|e|] w']; cbn [snd].
  - destruct (errors resp) as [errs|]; [apply nrqlCatch_state|].
    destruct (nrqlResultOf resp); [reflexivity | apply nrqlCatch_state].
  - apply nrqlCatch_state.
  - reflexivity.
Qed.

Lemma getAccountDetails_state (id : option string) (w : World AccountResponse) :
  snd (getAccountDetails load_env this id w) = w
  \/ exists id' : string,
       snd (getAccountDetails load_env this id w)
       = snd (executeNerdGraphQuery load_env this (accountDocument id') None w).
Proof.
  unfold getAccountDetails.
  destruct (or_else id (defaultAccountId this)) as [id'|]; [|left; reflexivity].
  destruct (negb (truthy_string id')); [left; reflexivity|].
  right. exists id'. unfold bind.
  destruct (executeNerdGraphQuery load_env this (accountDocument id') None w)
    as [[resp|e|] w']; simpl; try reflexivity.
  destruct ((data resp ≫= account_actor) ≫= actor_account_info); reflexivity.
Qed.

Lemma listApmApplications_state (id : option string)
    (w : World EntitySearchResponse) :
  snd (listApmApplications load_env this id w) = w
  \/ exists id' : string,
       snd (listApmApplications load_env this id w)
       = snd (executeNerdGraphQuery load_env this
                (entitySearchDocument id') None w).
Proof.
  unfold listApmApplications.
  destruct (or_else id (defaultAccountId this)) as [id'|]; [|left; reflexivity].
  destruct (negb (truthy_string id')); [left; reflexivity|].
  right. exists id'. unfold bind.
  destruct (executeNerdGraphQuery load_env this (entitySearchDocument id') None w)
    as [[resp|e|] w']; reflexivity.
Qed.

(** X2. No method retries or fans out: a call of [validateCredentials],
    [getAccountDetails], [runNrqlQuery] or [listApmApplications] leaves the
    process as it found it or with exactly one more request sent, a POST to
    the load-time URL; a client without a key never sends anything. *)
Theorem each_query_sends_at_most_one_request :
  (forall w : World UserResponse,
     sent (snd (validateCredentials load_env this w)) = sent w
     \/ exists req, sent (snd (validateCredentials load_env this w))
                    = sent w ++ [req]
                    /\ req_url req = NERDGRAPH_URL load_env
                    /\ req_method req = "POST")
  /\ (forall (id : option string) (w : World AccountResponse),
        sent (snd (getAccountDetails load_env this id w)) = sent w
        \/ exists req, sent (snd (getAccountDetails load_env this id w))
                       = sent w ++ [req]
                       /\ req_url req = NERDGRAPH_URL load_env
                       /\ req_method req = "POST")
  /\ (forall (params : NrqlParams) (w : World NrqlResponse),
        sent (snd (runNrqlQuery load_env this params w)) = sent w
        \/ exists req, sent (snd (runNrqlQuery load_env this params w))
                       = sent w ++ [req]
                       /\ req_url req = NERDGRAPH_URL load_env
                       /\ req_method req = "POST")
  /\ (forall (id : option string) (w : World EntitySearchResponse),
        sent (snd (listApmApplications load_env this id w)) = sent w
        \/ exists req, sent (snd (listApmApplications load_env this id w))
                       = sent w ++ [req]
                       /\ req_url req = NERDGRAPH_URL load_env
                       /\ req_method req = "POST")
  /\ (truthy_string (apiKey this) = false ->
      (forall w, snd (validateCredentials load_env this w) = w)
      /\ (forall id w, snd (getAccountDetails load_env this id w) = w)
      /\ (forall params w, snd (runNrqlQuery load_env this params w) = w)
      /\ (forall id w, snd (listApmApplications load_env this id w) = w)).
Proof.
  assert (Hexec : forall T q (w w' : World T),
    w' = snd (executeNerdGraphQuery load_env this q None w) ->
    sent w' = sent w
    \/ exists req, sent w' = sent w ++ [req]
                   /\ req_url req = NERDGRAPH_URL load_env
                   /\ req_method req = "POST").
  { intros T q w w' ->.
    destruct (execute_outcome_state q None w) as [-> | ->]; [left; reflexivity|].
    right. eexists. split; [reflexivity|]. split; reflexivity. }
  split; [|split; [|split; [|split]]].
  - intros w. apply (Hexec _ userDocument). apply validateCredentials_state.
  - intros id w.
    destruct (getAccountDetails_state id w) as [-> | [id' H]];
      [left; reflexivity | exact (Hexec _ _ _ _ H)].
  - intros params w.
    destruct (runNrqlQuery_state params w) as [-> | H];
      [left; reflexivity | exact (Hexec _ _ _ _ H)].
  - intros id w.
    destruct (listApmApplications_state id w) as [-> | [id' H]];
      [left; reflexivity | exact (Hexec _ _ _ _ H)].
  - intros Hk.
    assert (Hnone : forall T q (w : World T),
      snd (executeNerdGraphQuery load_env this q None w) = w).
    { intros T q w.
      rewrite (execute_without_key load_env this q None w Hk). reflexivity. }
    split; [|split; [|split]].
    + intros w. rewrite validateCredentials_state. apply Hnone.
    + intros id w.
      destruct (getAccountDetails_state id w) as [H | [id' H]];
        [exact H | rewrite H; apply Hnone].
    + intros params w.
      destruct (runNrqlQuery_state params w) as [H | H];
        [exact H | rewrite H; apply Hnone].
    + intros id w.
      destruct (listApmApplications_state id w) as [H | [id' H]];
        [exact H | rewrite H; apply Hnone].
Qed.

Lemma getAccountDetails_with_id (id : string) (w : World AccountResponse) :
  truthy_string id = true ->
  getAccountDetails load_env this (Some id) w
  = bind (executeNerdGraphQuery load_env this (accountDocument id) None)
      (fun response =>
         match (data response ≫= account_actor) ≫= actor_account_info with
         | None => throw (Error ("Account " +:+ id +:+ " not found"))
         | Some account =>
             ret (mkAccountDetails (account_id account) (account_name account)
                                   None)
         end) w.
Proof.
  intros Hid. unfold getAccountDetails, or_else. cbn [truthy_opt].
  rewrite Hid. cbv beta iota. rewrite Hid. reflexivity.
Qed.

Lemma listApmApplications_with_id (id : string)
    (w : World EntitySearchResponse) :
  truthy_string id = true ->
  listApmApplications load_env this (Some id) w
  = bind (executeNerdGraphQuery load_env this (entitySearchDocument id) None)
      (fun response => ret (map toApmApplication (entitiesOf response))) w.
Proof.
  intros Hid. unfold listApmApplications, or_else. cbn [truthy_opt].
  rewrite Hid. cbv beta iota. rewrite Hid. reflexivity.
Qed.

(** X3. [getAccountDetails] resolves its id before anything else: an
    explicit non-empty argument wins over the client's default whatever
    that default is, an absent or empty argument behaves as if the default
    had been passed, and when neither provides an id the call fails with
    "Account ID must be provided" and sends nothing. *)
Theorem getAccountDetails_resolves_id (accountId : option string)
    (w : World AccountResponse) :
  (truthy_opt accountId = true ->
     forall d : option string,
       getAccountDetails load_env (mkClient (apiKey this) d) accountId w
       = getAccountDetails load_env this accountId w)
  /\ (truthy_opt accountId = false ->
      getAccountDetails load_env this accountId w
      = getAccountDetails load_env this (defaultAccountId this) w)
  /\ (truthy_opt accountId = false ->
      truthy_opt (defaultAccountId this) = false ->
      getAccountDetails load_env this accountId w
      = (Throws (Error "Account ID must be provided"), w)).
Proof.
  unfold getAccountDetails, or_else. split; [|split].
  - intros Ha d. rewrite Ha. simpl.
    destruct accountId as [id|]; [|discriminate].
    simpl in Ha. rewrite Ha. reflexivity.
  - intros Ha. rewrite Ha.
    destruct (truthy_opt (defaultAccountId this)); reflexivity.
  - intros Ha Hd. rewrite Ha.
    destruct (defaultAccountId this) as [id|]; [|reflexivity].
    simpl in Hd. rewrite Hd. reflexivity.
Qed.

(** X4. Once the response is a 2xx with a readable body, only
    [data.actor.account] decides [getAccountDetails]: with an account node
    the call returns that node's id and name (and no region), without one
    it fails with "Account <id> not found", naming the id it asked for. An
    [errors] array in the envelope plays no part. *)
Theorem getAccountDetails_outcome (id : string) (w : World AccountResponse)
    (r : FetchResponse AccountResponse)
    (resp : GraphQLResponse AccountResponse) :
  truthy_string id = true ->
  truthy_string (apiKey this) = true ->
  fetch w (sent w)
    (nerdGraphRequest load_env this (accountDocument id) None) = Resolved r ->
  ok r = true ->
  json r = Resolved resp ->
  fst (getAccountDetails load_env this (Some id) w)
  = match (data resp ≫= account_actor) ≫= actor_account_info with
    | Some account =>
        Returns (mkAccountDetails (account_id account) (account_name account)
                                  None)
    | None => Throws (Error ("Account " +:+ id +:+ " not found"))
    end.
Proof.
  intros Hid Hk Hf Hok Hj.
  rewrite (getAccountDetails_with_id id w Hid). unfold bind.
  rewrite (execute_with_key load_env this _ None w Hk), Hf, Hok, Hj. simpl.
  destruct ((data resp ≫= account_actor) ≫= actor_account_info); reflexivity.
Qed.

(** X5. A failure of the transport passes through [getAccountDetails] and
    [listApmApplications] unchanged, reaches the caller of [runNrqlQuery]
    unchanged unless its message contains "Syntax error" (then it is
    re-labeled), and is turned into [false] by [validateCredentials]. *)
Theorem transport_failure_propagation (e : Exn) :
  (forall (id : string) (w : World AccountResponse),
     truthy_string id = true ->
     fst (executeNerdGraphQuery load_env this (accountDocument id) None w)
     = Throws e ->
     fst (getAccountDetails load_env this (Some id) w) = Throws e)
  /\ (forall (id : string) (w : World EntitySearchResponse),
        truthy_string id = true ->
        fst (executeNerdGraphQuery load_env this
               (entitySearchDocument id) None w) = Throws e ->
        fst (listApmApplications load_env this (Some id) w) = Throws e)
  /\ (forall (params : NrqlParams) (w : World NrqlResponse),
        truthy_string (nrql params) = true ->
        test_digits (accountId params) = true ->
        fst (executeNerdGraphQuery load_env this (nrqlDocument params) None w)
        = Throws e ->
        fst (runNrqlQuery load_env this params w)
        = Throws (if includes (exn_message e) "Syntax error"
                  then Error ("NRQL Syntax error: " +:+ exn_message e)
                  else e))
  /\ (forall w : World UserResponse,
        fst (executeNerdGraphQuery load_env this userDocument None w)
        = Throws e ->
        fst (validateCredentials load_env this w) = Returns false).
Proof.
  split; [|split; [|split]].
  - intros id w Hid He. rewrite (getAccountDetails_with_id id w Hid).
    unfold bind.
    destruct (executeNerdGraphQuery load_env this (accountDocument id) None w)
      as [[resp|e'|] w']; simpl in *; congruence.
  - intros id w Hid He. rewrite (listApmApplications_with_id id w Hid).
    unfold bind.
    destruct (executeNerdGraphQuery load_env this
                (entitySearchDocument id) None w)
      as [[resp|e'|] w']; simpl in *; congruence.
  - intros params w Hq Hd He. unfold runNrqlQuery.
    rewrite Hq, Hd, (test_digits_truthy _ Hd). simpl.
    unfold try_catch, bind.
    destruct (executeNerdGraphQuery load_env this (nrqlDocument params) None w)
      as [[resp|e'|] w']; simpl in *; try discriminate.
    injection He as ->. unfold nrqlCatch.
    destruct (includes (exn_message e) "Syntax error"); reflexivity.
  - intros w He. unfold validateCredentials, try_catch, bind.
    destruct (executeNerdGraphQuery load_env this userDocument None w)
      as [[resp|e'|] w']; simpl in *; try discriminate. reflexivity.
Qed.

(** X6. [runNrqlQuery] validates before it sends: an empty query fails with
    "Invalid or empty NRQL query provided", and a non-empty query with an
    account id that is not a non-empty string of decimal digits fails with
    "Invalid account ID format"; in both cases nothing leaves the process.
    With a key and both arguments valid, exactly one request is sent. *)
Theorem runNrqlQuery_validates_first (params : NrqlParams)
    (w : World NrqlResponse) :
  (nrql params = "" ->
     runNrqlQuery load_env this params w
     = (Throws (Error "Invalid or empty NRQL query provided"), w))
  /\ (nrql params <> "" -> ~ digits_only (accountId params) ->
      runNrqlQuery load_env this params w
      = (Throws (Error "Invalid account ID format"), w))
  /\ (nrql params <> "" -> digits_only (accountId params) ->
      truthy_string (apiKey this) = true ->
      sent (snd (runNrqlQuery load_env this params w))
      = sent w ++ [nerdGraphRequest load_env this (nrqlDocument params) None]).
Proof.
  split; [|split].
  - intros Hq. unfold runNrqlQuery. rewrite Hq. reflexivity.
  - intros Hq Hd. unfold runNrqlQuery.
    destruct (truthy_string (nrql params)) eqn:Hn;
      [|apply truthy_string_empty in Hn; contradiction].
    simpl.
    destruct (test_digits (accountId params)) eqn:Ht.
    + exfalso. apply Hd. apply test_digits_spec. exact Ht.
    + rewrite orb_true_r. reflexivity.
  - intros Hq Hd Hk. apply test_digits_spec in Hd.
    destruct (truthy_string (nrql params)) eqn:Hn;
      [|apply truthy_string_empty in Hn; contradiction].
    rewrite (runNrqlQuery_state_valid params w Hn Hd),
      (execute_sends_one load_env this _ None w Hk).
    reflexivity.
Qed.

End ClientQueries.

(* ===================================================================== *)
(** * Entities and their tags                                            *)
(* ===================================================================== *)

Section Entities.

Import Client Scenarios Views.

Lemma parseTag_entry (m : gmap string string) (tag : TagNode) :
  parseTag m tag
  = match tagEntry tag with
    | Some (k, v) => <[k := v]> m
    | None => m
    end.
Proof.
  unfold parseTag, tagEntry, assign.
  destruct (tag_key tag) as [key|]; [|reflexivity].
  destruct (default [] (tag_values tag)) as [|value rest]; [reflexivity|].
  destruct (truthy_string key), (String.eqb key "__proto__"); reflexivity.
Qed.

Lemma parseTags_snoc (tags : list TagNode) (tag : TagNode) :
  parseTags (Some (tags ++ [tag])) = parseTag (parseTags (Some tags)) tag.
Proof. unfold parseTags. rewrite fold_left_app. reflexivity. Qed.

Lemma tagEntry_spec (tag : TagNode) (k v : string) :
  tagEntry tag = Some (k, v)
  <-> tag_key tag = Some k /\ k <> "" /\ k <> "__proto__"
      /\ exists values, tag_values tag = Some (v :: values).
Proof.
  unfold tagEntry.
  destruct (tag_key tag) as [key|];
    [|split; [discriminate | intros [[=] _]]].
  destruct (tag_values tag) as [[|value rest]|]; simpl;
    try (split; [discriminate | intros (_ & _ & _ & vs & [=])]).
  destruct (truthy_string key) eqn:Hkey, (String.eqb key "__proto__") eqn:Hp;
    simpl; split;
    try discriminate;
    try (intros ([= ->] & Hne & Hnp & vs & [= -> ->]);
         try (apply String.eqb_eq in Hp; contradiction);
         try (apply truthy_string_empty in Hkey; contradiction)).
  - intros [= -> ->]. split; [reflexivity|]. split.
    + intros ->. discriminate.
    + split; [apply String.eqb_neq; exact Hp | exists rest; reflexivity].
  - reflexivity.
Qed.

Lemma snoc_split {A} (l before after : list A) (x y : A) :
  l ++ [x] = before ++ y :: after ->
  (after = [] /\ l = before /\ x = y)
  \/ exists after', after = after' ++ [x] /\ l = before ++ y :: after'.
Proof.
  destruct after as [|a after _] using rev_ind.
  - intros H. apply app_inj_tail in H as [-> ->]. left. auto.
  - intros H. right. exists after.
    rewrite app_comm_cons, app_assoc in H.
    apply app_inj_tail in H as [-> ->]. split; reflexivity.
Qed.

(** X7. [parseTags] keeps, for each key, the first value of the last tag
    that carries it: the object has [k] bound to [v] exactly when some tag
    has the non-empty key [k] (other than "__proto__") and a value list
    starting with [v], and no later tag with that key has any value. Tags
    without a key or without values leave no trace. *)
Theorem parseTags_lookup (tags : list TagNode) (k v : string) :
  parseTags (Some tags) !! k = Some v
  <-> exists (before : list TagNode) (tag : TagNode) (after : list TagNode)
             (values : list string),
        tags = before ++ tag :: after
        /\ tag_key tag = Some k /\ k <> "" /\ k <> "__proto__"
        /\ tag_values tag = Some (v :: values)
        /\ Forall (fun later => tag_key later = Some k ->
                                default [] (tag_values later) = []) after.
Proof.
  induction tags as [|last tags IH] using rev_ind.
  - simpl. rewrite lookup_empty. split; [discriminate|].
    intros (before & tag & after & values & H & _).
    destruct before; discriminate.
  - rewrite parseTags_snoc, parseTag_entry. split.
    + intros Hlook.
      destruct (tagEntry last) as [[k' v']|] eqn:Hentry.
      * destruct (decide (k' = k)) as [->|Hne].
        -- rewrite lookup_insert_eq in Hlook. injection Hlook as ->.
           apply tagEntry_spec in Hentry as (Hk & Hne & Hnp & values & Hv).
           exists tags, last, [], values. repeat split; auto.
        -- rewrite lookup_insert_ne in Hlook by exact Hne.
           apply IH in Hlook
             as (before & tag & after & values & -> & Hk & He & Hp & Hv & Hall).
           exists before, tag, (after ++ [last]), values.
           rewrite <- app_assoc. repeat split; auto.
           apply Forall_app. split; [exact Hall|].
           constructor; [|constructor].
           intros Hlast. apply tagEntry_spec in Hentry as (Hk' & _).
           congruence.
      * apply IH in Hlook
          as (before & tag & after & values & -> & Hk & He & Hp & Hv & Hall).
        exists before, tag, (after ++ [last]), values.
        rewrite <- app_assoc. repeat split; auto.
        apply Forall_app. split; [exact Hall|].
        constructor; [|constructor].
        intros Hlast.
        destruct (default [] (tag_values last)) as [|value rest] eqn:Hvals;
          [reflexivity|].
        exfalso.
        assert (Hsome : tagEntry last = Some (k, value)).
        { apply tagEntry_spec. repeat split; auto.
          destruct (tag_values last) as [vs|]; [|discriminate].
          simpl in Hvals. subst vs. exists rest. reflexivity. }
        congruence.
    + intros (before & tag & after & values & Heq & Hk & He & Hp & Hv & Hall).
      apply snoc_split in Heq as [(-> & -> & ->) | (after' & -> & ->)].
      * assert (Hentry : tagEntry tag = Some (k, v)).
        { apply tagEntry_spec. repeat split; auto. exists values. exact Hv. }
        rewrite Hentry. apply lookup_insert_eq.
      * apply Forall_app in Hall as [Hall Hlast].
        apply Forall_inv in Hlast.
        assert (Hold : parseTags (Some (before ++ tag :: after')) !! k = Some v).
        { apply IH. exists before, tag, after', values. repeat split; auto. }
        destruct (tagEntry last) as [[k' v']|] eqn:Hentry; [|exact Hold].
        destruct (decide (k' = k)) as [->|Hne].
        -- exfalso.
           apply tagEntry_spec in Hentry as (Hk' & _ & _ & vs & Hv').
           specialize (Hlast Hk'). rewrite Hv' in Hlast. discriminate.
        -- rewrite lookup_insert_ne by exact Hne. exact Hold.
Qed.

Variable load_env : gmap string string.
Variable this : NewRelicClient.

(** X8. [listApmApplications] maps the entities of the response one to one
    and in order: guid, name and alert severity are copied, a missing or
    empty language becomes "unknown" (so no application has an empty
    language), a missing [reporting] becomes [false], and the tags are
    those of [parseTags]. A response without entities, at whatever level
    the data stops, yields the empty list rather than a failure. *)
Theorem listApmApplications_maps_entities (id : string)
    (w : World EntitySearchResponse) (r : FetchResponse EntitySearchResponse)
    (resp : GraphQLResponse EntitySearchResponse) :
  truthy_string id = true ->
  truthy_string (apiKey this) = true ->
  fetch w (sent w)
    (nerdGraphRequest load_env this (entitySearchDocument id) None)
  = Resolved r ->
  ok r = true ->
  json r = Resolved resp ->
  exists apps : list ApmApplication,
    fst (listApmApplications load_env this (Some id) w) = Returns apps
    /\ length apps = length (entitiesOf resp)
    /\ (forall (i : nat) (entity : EntityNode),
          entitiesOf resp !! i = Some entity ->
          exists app,
            apps !! i = Some app
            /\ app_guid app = entity_guid entity
            /\ app_name app = entity_name entity
            /\ app_alertSeverity app = entity_alertSeverity entity
            /\ app_language app
               = match entity_language entity with
                 | Some "" | None => "unknown"
                 | Some language => language
                 end
            /\ app_reporting app = default false (entity_reporting entity)
            /\ app_tags app = parseTags (entity_tags entity))
    /\ Forall (fun app => app_language app <> "") apps
    /\ ((((data resp ≫= search_actor) ≫= actor_entitySearch)
           ≫= search_results) ≫= results_entities = None ->
        apps = []).
Proof.
  intros Hid Hk Hf Hok Hj.
  exists (map toApmApplication (entitiesOf resp)).
  split; [|split; [|split; [|split]]].
  - rewrite (listApmApplications_with_id load_env this id w Hid). unfold bind.
    rewrite (execute_with_key load_env this _ None w Hk), Hf, Hok, Hj.
    reflexivity.
  - apply length_map.
  - intros i entity Hi. exists (toApmApplication entity).
    split; [rewrite list_lookup_fmap, Hi; reflexivity|].
    repeat split; try reflexivity.
    simpl. destruct (entity_language entity) as [[|c l]|]; reflexivity.
  - apply Forall_map. apply Forall_forall. intros entity _. simpl.
    destruct (entity_language entity) as [[|c l]|]; simpl; discriminate.
  - intros Hnone. unfold entitiesOf. rewrite Hnone. reflexivity.
Qed.

End Entities.

(* ===================================================================== *)
(** * The NRQL document and the result's metadata                        *)
(* ===================================================================== *)

Section NrqlDocument.

Import Client Scenarios Views.

(** X9. The NRQL document is the fixed text [nrqlHead], [nrqlMiddle],
    [nrqlTail] around two holes: the account id, copied as it is, and the
    query between double quotes. In the query
    only the double quotes are touched: each gets one backslash in front
    and nothing else changes. That is: every quote of the embedded text
    comes right after a backslash, taking away the backslashes that stand
    before quotes gives back the query exactly, the text is longer by one
    character per quote, and a query without quotes is embedded verbatim. *)
Theorem nrqlDocument_escapes_quotes (params : NrqlParams) :
  exists text : string,
    nrqlDocument params
    = nrqlHead +:+ accountId params +:+ nrqlMiddle
      +:+ dquote +:+ text +:+ dquote +:+ nrqlTail
    /\ quotes_escaped false text = true
    /\ unescape_quotes text = nrql params
    /\ String.length text
       = String.length (nrql params) + count_char "034" (nrql params)
    /\ (count_char "034" (nrql params) = 0 -> text = nrql params).
Proof.
  exists (replace_all "034" (backslash +:+ dquote) (nrql params)).
  split; [|split; [|split; [|split]]].
  - unfold nrqlDocument, unlines, nrqlHead, nrqlMiddle, nrqlTail.
    cbn [fold_left]. rewrite !append_assoc. reflexivity.
  - apply escape_quotes_escaped.
  - apply unescape_escape.
  - apply escape_length.
  - apply escape_without_quotes.
Qed.

Variable load_env : gmap string string.
Variable this : NewRelicClient.
Variable params : NrqlParams.

(** X10. On success [runNrqlQuery] returns the rows of the response (none
    when the node has no [results]) and its metadata fields unchanged, and
    adds the [timeSeries] flag: true exactly when the lower-cased query
    text contains "timeseries", hence for that word in any letter case
    anywhere in the text. *)
Theorem runNrqlQuery_result (w : World NrqlResponse)
    (r : FetchResponse NrqlResponse) (resp : GraphQLResponse NrqlResponse)
    (node : NrqlNode) :
  truthy_string (nrql params) = true ->
  test_digits (accountId params) = true ->
  truthy_string (apiKey this) = true ->
  fetch w (sent w)
    (nerdGraphRequest load_env this (nrqlDocument params) None) = Resolved r ->
  ok r = true ->
  json r = Resolved resp ->
  errors resp = None ->
  nrqlResultOf resp = Some node ->
  exists res : NrqlQueryResult,
    fst (runNrqlQuery load_env this params w) = Returns res
    /\ results res = default [] (nrql_results node)
    /\ eventTypes (metadata res) = nrql_metadata node ≫= md_eventTypes
    /\ timeWindow (metadata res) = nrql_metadata node ≫= md_timeWindow
    /\ facets (metadata res) = nrql_metadata node ≫= md_facets
    /\ timeSeries (metadata res)
       = Some (includes (toLowerCase (nrql params)) "timeseries")
    /\ (forall a x b : string,
          nrql params = a +:+ x +:+ b ->
          toLowerCase x = "timeseries" ->
          timeSeries (metadata res) = Some true).
Proof.
  intros Hq Hid Hk Hf Hok Hj Herr Hnode.
  rewrite (runNrqlQuery_decoded load_env this params w r resp
             Hq Hid Hk Hf Hok Hj), Herr, Hnode.
  eexists. split; [reflexivity|]. repeat split.
  intros a x b Hsplit Hx. simpl. rewrite Hsplit.
  rewrite (includes_any_case a x b "timeseries" Hx). reflexivity.
Qed.

End NrqlDocument.

(* ===================================================================== *)
(** * Sessions: creation from headers, expiry                            *)
(* ===================================================================== *)

Section Sessions.

Import Client HttpServer Scenarios Views.

Lemma session_region_is_EU (token : option string) :
  String.eqb (toUpperCase (or_default token "US")) "EU" = anyCaseEU token.
Proof.
  destruct token as [[|c region]|]; [reflexivity | | reflexivity].
  apply toUpperCase_is_EU.
Qed.

(** X11. A session is created exactly when the key header is present and
    not empty. Its client carries the header's key whatever key the
    server's own environment holds, while its default account id is the
    header's when that is present and not empty and the server's
    [NEW_RELIC_ACCOUNT_ID] otherwise. The recorded region is "US" when the
    region header is missing or empty, it is "EU" exactly when the header
    spells "EU" in some letter case, and for a header of ASCII characters
    it is the header in upper case. *)
Theorem session_from_headers (headers env : gmap string string) :
  (createSessionFromHeaders headers env = None
   <-> truthy_opt (headers !! "x-new-relic-api-key") = false)
  /\ (forall ctx : SessionContext,
        createSessionFromHeaders headers env = Some ctx ->
        headers !! "x-new-relic-api-key" = Some (ctx_apiKey ctx)
        /\ apiKey (ctx_client ctx) = ctx_apiKey ctx
        /\ ctx_accountId ctx = headers !! "x-new-relic-account-id"
        /\ defaultAccountId (ctx_client ctx)
           = (if truthy_opt (headers !! "x-new-relic-account-id")
              then headers !! "x-new-relic-account-id"
              else env !! "NEW_RELIC_ACCOUNT_ID")
        /\ (truthy_opt (headers !! "x-new-relic-region") = false ->
            ctx_region ctx = "US")
        /\ (ctx_region ctx = "EU"
            <-> anyCaseEU (headers !! "x-new-relic-region") = true)
        /\ (forall region : string,
              headers !! "x-new-relic-region" = Some region ->
              truthy_string region = true ->
              is_ascii region = true ->
              ctx_region ctx = toUpperCase region)).
Proof.
  unfold createSessionFromHeaders.
  destruct (headers !! "x-new-relic-api-key") as [key|]; simpl.
  - destruct (truthy_string key) eqn:Hkey; simpl.
    + split; [split; discriminate|].
      intros ctx [= <-]. simpl.
      split; [reflexivity|]. split.
      * unfold or_else. simpl. rewrite Hkey. simpl.
        destruct key; [discriminate | reflexivity].
      * split; [reflexivity|]. split; [reflexivity|].
        split; [|split].
        -- destruct (headers !! "x-new-relic-region") as [[|c region]|];
             [reflexivity | discriminate | reflexivity].
        -- rewrite <- String.eqb_eq. apply eq_iff_eq_true.
           apply session_region_is_EU.
        -- intros region -> Hregion _. simpl. rewrite Hregion. reflexivity.
    + split; [split; reflexivity | discriminate].
  - split; [split; reflexivity | discriminate].
Qed.

(** What a run of the loop over some entries leaves of one id. *)
Lemma expire_entries_lookup (now : Z) (entries : list (string * Z))
    (store : SessionStore) (id : string) :
  let hit :=
    existsb (fun entry : string * Z =>
               String.eqb (fst entry) id
               && (now - snd entry >? SESSION_TTL_MS)%Z) entries in
  let store' := fold_left (expireIfStale now) entries store in
  sessions store' !! id = (if hit then None else sessions store !! id)
  /\ sessionLastAccess store' !! id
     = (if hit then None else sessionLastAccess store !! id).
Proof.
  revert store. induction entries as [|[k t] entries IH]; intros store.
  - split; reflexivity.
  - cbn [fold_left existsb fst snd].
    destruct (IH (expireIfStale now store (k, t))) as [IHs IHl].
    cbv zeta in IHs, IHl. cbv zeta. rewrite IHs, IHl. clear IHs IHl.
    unfold expireIfStale.
    destruct (existsb _ entries); [rewrite orb_true_r; split; reflexivity|].
    rewrite orb_false_r.
    destruct (now - t >? SESSION_TTL_MS)%Z; cbn [sessions sessionLastAccess].
    + destruct (String.eqb k id) eqn:Hk.
      * apply String.eqb_eq in Hk as ->.
        rewrite !lookup_delete_eq. split; reflexivity.
      * apply String.eqb_neq in Hk.
        rewrite !lookup_delete_ne by exact Hk. split; reflexivity.
    + rewrite andb_false_r. split; reflexivity.
Qed.

Lemma stale_entry (now : Z) (lastAccess : gmap string Z) (id : string) :
  existsb (fun entry : string * Z =>
             String.eqb (fst entry) id
             && (now - snd entry >? SESSION_TTL_MS)%Z)
    (map_to_list lastAccess) = true
  <-> stale now lastAccess id.
Proof.
  rewrite existsb_exists. unfold stale. split.
  - intros ([k t] & Hin & Hhit). simpl in Hhit.
    apply andb_true_iff in Hhit as [Hk Ht].
    apply String.eqb_eq in Hk as ->.
    apply list_elem_of_In, elem_of_map_to_list in Hin.
    exists t. split; [exact Hin | apply Z.gtb_gt; exact Ht].
  - intros (t & Hlook & Ht). exists (id, t). split.
    + apply list_elem_of_In, elem_of_map_to_list. exact Hlook.
    + simpl. rewrite String.eqb_refl. apply Z.gtb_gt in Ht. rewrite Ht.
      reflexivity.
Qed.

(** X12. The periodic clean-up removes a session, and its access record,
    exactly when the record is more than an hour older than [now]; every
    other entry of both maps is left as it was, a session that has no
    access record included. Afterwards no record is stale. *)
Theorem cleanupSessions_expires_stale (now : Z) (store : SessionStore)
    (id : string) :
  (stale now (sessionLastAccess store) id ->
     sessions (cleanupSessions now store) !! id = None
     /\ sessionLastAccess (cleanupSessions now store) !! id = None)
  /\ (~ stale now (sessionLastAccess store) id ->
      sessions (cleanupSessions now store) !! id = sessions store !! id
      /\ sessionLastAccess (cleanupSessions now store) !! id
         = sessionLastAccess store !! id)
  /\ ~ stale now (sessionLastAccess (cleanupSessions now store)) id.
Proof.
  pose proof (expire_entries_lookup now
                (map_to_list (sessionLastAccess store)) store id) as H.
  cbv zeta in H. fold (cleanupSessions now store) in H.
  destruct H as [Hs Hl].
  pose proof (stale_entry now (sessionLastAccess store) id) as Hiff.
  destruct (existsb _ (map_to_list (sessionLastAccess store))).
  - assert (Hst : stale now (sessionLastAccess store) id)
      by (apply Hiff; reflexivity).
    split; [intros _; split; assumption|].
    split; [intros Hn; contradiction|].
    intros (t & Ht & _). rewrite Hl in Ht. discriminate.
  - assert (Hst : ~ stale now (sessionLastAccess store) id).
    { intros Hst. apply Hiff in Hst. discriminate. }
    split; [intros Hy; contradiction|].
    split; [intros _; split; assumption|].
    intros (t & Ht & Hgt). apply Hst. exists t. rewrite Hl in Ht. auto.
Qed.

End Sessions.

(* ===================================================================== *)
(** * Further scenarios, replayed                                        *)
(* ===================================================================== *)

Section MoreReplays.

Import Client HttpServer Scenarios Views.

(** A client without a key probes, asks and lists without sending. *)
Lemma each_query_sends_at_most_one_request_witness :
  snd (validateCredentials ∅ bareClient (answeringWith userEnvelope))
  = answeringWith userEnvelope
  /\ snd (runNrqlQuery ∅ bareClient countQuery (answeringWith countEnvelope))
     = answeringWith countEnvelope.
Proof.
  destruct (each_query_sends_at_most_one_request ∅ bareClient)
    as (_ & _ & _ & _ & H).
  destruct (H eq_refl) as (Hv & _ & Hn & _).
  split; [apply Hv | apply Hn].
Defined.

(** No argument and no default: the call fails before the network. *)
Lemma getAccountDetails_resolves_id_witness :
  getAccountDetails ∅ bareClient (Some "") (answeringWith accountEnvelope)
  = (Throws (Error "Account ID must be provided"),
     answeringWith accountEnvelope).
Proof.
  destruct (getAccountDetails_resolves_id ∅ bareClient (Some "")
              (answeringWith accountEnvelope)) as (_ & _ & H).
  exact (H eq_refl eq_refl).
Defined.

(** The account is returned although the envelope also carries errors. *)
Lemma getAccountDetails_outcome_witness :
  errors accountEnvelope <> None
  /\ fst (getAccountDetails ∅ testClient (Some "123456")
            (answeringWith accountEnvelope))
     = Returns (mkAccountDetails "123456" "Test Account" None).
Proof.
  split; [discriminate|].
  exact (getAccountDetails_outcome ∅ testClient "123456"
           (answeringWith accountEnvelope) _ accountEnvelope
           eq_refl eq_refl eq_refl eq_refl eq_refl).
Defined.

(** A 500 under each method. *)
Lemma transport_failure_propagation_witness :
  fst (getAccountDetails ∅ testClient (Some "123456")
         (mkWorld testEnv (answering (mkResponse 500 "Oops" (Rejected missingKey))) []))
  = Throws (Error "NerdGraph API error: 500 Oops")
  /\ fst (validateCredentials ∅ testClient
            (mkWorld testEnv (answering (mkResponse 500 "Oops" (Rejected missingKey))) []))
     = Returns false.
Proof.
  destruct (transport_failure_propagation ∅ testClient
              (Error "NerdGraph API error: 500 Oops")) as (Ha & _ & _ & Hv).
  split; [apply Ha; reflexivity | apply Hv; reflexivity].
Defined.

(** The account id "12a" is refused, and nothing is sent. *)
Lemma runNrqlQuery_validates_first_witness :
  runNrqlQuery ∅ testClient (mkNrqlParams "SELECT 1" "12a")
    (answeringWith countEnvelope)
  = (Throws (Error "Invalid account ID format"), answeringWith countEnvelope).
Proof.
  destruct (runNrqlQuery_validates_first ∅ testClient
              (mkNrqlParams "SELECT 1" "12a") (answeringWith countEnvelope))
    as (_ & H & _).
  apply H; [discriminate|].
  intros [_ Hd]. specialize (Hd "a"%char). simpl in Hd.
  assert (Hin : (48 <= 97 <= 57)%N) by (apply Hd; auto).
  lia.
Defined.

(** Of two tags with the key "env" the later one provides the value. *)
Lemma parseTags_lookup_witness :
  parseTags (Some webTags) !! "env" = Some "production".
Proof.
  apply parseTags_lookup.
  exists [ mkTagNode (Some "env") (Some ["staging"; "blue"]);
           mkTagNode (Some "team") (Some []);
           mkTagNode None (Some ["orphan"]) ],
         (mkTagNode (Some "env") (Some ["production"])), [], [].
  repeat split; try discriminate. constructor.
Defined.

(** The entity of the scenario, mapped. *)
Lemma listApmApplications_maps_entities_witness :
  exists apps : list ApmApplication,
    fst (listApmApplications ∅ testClient None (answeringWith entityEnvelope))
    = Returns apps
    /\ length apps = 1
    /\ Forall (fun app => app_language app <> "") apps.
Proof.
  destruct (listApmApplications_maps_entities ∅ testClient "123456"
              (answeringWith entityEnvelope) _ entityEnvelope
              eq_refl eq_refl eq_refl eq_refl eq_refl)
    as (apps & Hfst & Hlen & _ & Hlang & _).
  exists apps. split; [exact Hfst|]. split; [exact Hlen | exact Hlang].
Defined.

(** "TimeSeries" in mixed case sets the flag. *)
Lemma runNrqlQuery_result_witness :
  exists res : NrqlQueryResult,
    fst (runNrqlQuery ∅ testClient seriesQuery (answeringWith countEnvelope))
    = Returns res
    /\ timeSeries (metadata res) = Some true.
Proof.
  destruct (runNrqlQuery_result ∅ testClient seriesQuery
              (answeringWith countEnvelope) _ countEnvelope countNode
              eq_refl eq_refl eq_refl eq_refl eq_refl eq_refl eq_refl eq_refl)
    as (res & Hfst & _ & _ & _ & _ & _ & Hany).
  exists res. split; [exact Hfst|].
  apply (Hany "SELECT count(*) FROM Transaction " "TimeSeries" "");
    reflexivity.
Defined.

(** Headers with a key but no account id: the client has the session's
    key and the server's account id. *)
Lemma session_from_headers_witness :
  exists ctx : SessionContext,
    createSessionFromHeaders euHeaders testEnv = Some ctx
    /\ apiKey (ctx_client ctx) = "NRAK-SESSION"
    /\ defaultAccountId (ctx_client ctx) = Some "123456"
    /\ ctx_region ctx = "EU".
Proof.
  destruct (session_from_headers euHeaders testEnv) as [_ H].
  destruct (createSessionFromHeaders euHeaders testEnv) as [ctx|] eqn:Hctx;
    [|discriminate].
  destruct (H ctx eq_refl) as (Hkey & Hclient & _ & Hacc & _ & Heu & _).
  exists ctx. split; [reflexivity|]. split; [|split].
  - rewrite Hclient. injection Hkey as <-. reflexivity.
  - exact Hacc.
  - apply Heu. reflexivity.
Defined.

(** One millisecond past the hour the old session goes, the new one stays. *)
Lemma cleanupSessions_expires_stale_witness :
  sessions (cleanupSessions 3600001 sampleStore) !! "old" = None
  /\ sessions (cleanupSessions 3600001 sampleStore) !! "new"
     = Some (sampleSession "K2").
Proof.
  destruct (cleanupSessions_expires_stale 3600001 sampleStore "old")
    as (Hold & _ & _).
  destruct (cleanupSessions_expires_stale 3600001 sampleStore "new")
    as (_ & Hnew & _).
  split.
  - apply Hold. exists 0%Z. split; reflexivity.
  - rewrite (proj1 (Hnew ltac:(intros (t & Ht & Hgt);
                              injection Ht as <-; discriminate Hgt))).
    reflexivity.
Defined.

End MoreReplays.
